(** * SLIP link layer (slip.py): framing, byte stuffing and stream reassembly

    A shallow embedding of [src/slip.py] and the properties of its
    encoder ([Enlace.enviar]), of its streaming decoder
    ([Enlace.__raw_recv]) and of the multiplexer ([CamadaEnlace]). *)

From Stdlib Require Import Strings.Byte.
From stdpp Require Import list strings gmap.

Set Default Proof Using "Type".

(** ** Python [bytes] *)

Abbreviation byte := Byte.byte.
Abbreviation bytes := (list Byte.byte).

#[global] Instance byte_eq_decision : EqDecision byte := Byte.byte_eq_dec.

(** Exceptions the modelled code can meet, and the result of a call. *)
Inductive exn :=
| KeyError
| ValueError
| IndexError
| TypeError
| Falha (codigo : nat).

Inductive res (A : Type) :=
| Ret (a : A)
| Exc (e : exn).
Arguments Ret {A} a.
Arguments Exc {A} e.

Module Bytes.

(** [s.startswith(p)] *)
Fixpoint startswith (s p : bytes) {struct p} : bool :=
  match p, s with
  | [], _ => true
  | _ :: _, [] => false
  | a :: p', b :: s' => if decide (b = a) then startswith s' p' else false
  end.

(** The scan of [s.replace(old, new)] for a non-empty [old]: left to
    right, no overlap. [skip] counts the bytes of a match still to be
    stepped over. *)
Fixpoint replace_go (old new : bytes) (skip : nat) (s : bytes) : bytes :=
  match s with
  | [] => []
  | b :: s' =>
      match skip with
      | S k => replace_go old new k s'
      | O =>
          if startswith s old
          then new ++ replace_go old new (length old - 1) s'
          else b :: replace_go old new 0 s'
      end
  end.

(** [s.replace(old, new)]; with an empty [old] Python puts [new] before
    every byte and at the end. *)
Definition replace (s old new : bytes) : bytes :=
  match old with
  | [] => new ++ flat_map (fun b => b :: new) s
  | _ :: _ => replace_go old new 0 s
  end.

(** The scan of [s.split(sep)] for a non-empty [sep]. *)
Fixpoint split_go (sep : bytes) (skip : nat) (s : bytes) : list bytes :=
  match s with
  | [] => [[]]
  | b :: s' =>
      match skip with
      | S k => split_go sep k s'
      | O =>
          if startswith s sep
          then [] :: split_go sep (length sep - 1) s'
          else match split_go sep 0 s' with
               | q :: qs => (b :: q) :: qs
               | [] => [[b]]
               end
      end
  end.

(** [s.split(sep)]: an empty separator raises ValueError. *)
Definition split (s sep : bytes) : res (list bytes) :=
  match sep with
  | [] => Exc ValueError
  | _ :: _ => Ret (split_go sep 0 s)
  end.

End Bytes.

(** [l[-1]]: IndexError on the empty list. *)
Definition index_last {A} (l : list A) : res A :=
  match last l with
  | Some x => Ret x
  | None => Exc IndexError
  end.

(** [l[:-1]]: slicing never raises. *)
Definition slice_init {A} (l : list A) : list A := removelast l.

(** ** Constants of the protocol (RFC 1055) *)

Definition END : bytes := [Byte.xc0].
Definition ESC : bytes := [Byte.xdb].
Definition ESC_END : bytes := [Byte.xdc].
Definition ESC_ESC : bytes := [Byte.xdd].

(** The byte stuffing of [Enlace.enviar] (lines 70-71) and its undoing in
    [Enlace.__raw_recv] (lines 109-110), as the pure expressions they are. *)
Definition escapar (datagrama : bytes) : bytes :=
  let datagrama_escapado := Bytes.replace datagrama ESC (ESC ++ ESC_ESC) in
  Bytes.replace datagrama_escapado END (ESC ++ ESC_END).

Definition desescapar (quadro_bruto : bytes) : bytes :=
  let datagrama := Bytes.replace quadro_bruto (ESC ++ ESC_END) END in
  Bytes.replace datagrama (ESC ++ ESC_ESC) ESC.

Definition quadro_de (datagrama : bytes) : bytes :=
  END ++ escapar datagrama ++ END.

(** ** The world outside the module and the call monad

    The transport ([linha_serial]) and the upper-layer receiver are
    external collaborators: [W] is their state, a call to one of them
    returns or raises and moves [W], and does not reach back into the
    object that makes the call. Every such call, and every line printed,
    is recorded in order in [eventos]. *)

Section Modelo.
Context {W L Cb : Type}.
Inductive evento :=
| EvEnviar (linha : L) (quadro : bytes)
| EvCallback (datagrama : bytes)
| EvPrint (texto : string)
| EvPrintExc (e : exn).

Record Mundo := { ext : W; eventos : list evento }.

Definition anotar (e : evento) (w : Mundo) : Mundo :=
  {| ext := ext w; eventos := eventos w ++ [e] |}.

(** A method of an object of type [S]: it may change the object and the
    world, and returns or raises. *)
Definition Py (S A : Type) : Type := S -> Mundo -> res A * S * Mundo.

Definition ret {S A} (a : A) : Py S A := fun s w => (Ret a, s, w).

Definition bind {S A B} (m : Py S A) (k : A -> Py S B) : Py S B :=
  fun s w =>
    match m s w with
    | (Ret a, s', w') => k a s' w'
    | (Exc e, s', w') => (Exc e, s', w')
    end.

Definition levantar {S A} (r : res A) : Py S A := fun s w => (r, s, w).

Definition ler {S A} (campo : S -> A) : Py S A := fun s w => (Ret (campo s), s, w).

Definition atribuir {S} (f : S -> S) : Py S unit := fun s w => (Ret tt, f s, w).

(** [try: m  except: h] with a bare [except], which catches everything. *)
Definition tentar {S A} (m : Py S A) (h : exn -> Py S A) : Py S A :=
  fun s w =>
    match m s w with
    | (Ret a, s', w') => (Ret a, s', w')
    | (Exc e, s', w') => h e s' w'
    end.

Definition print {S} (texto : string) : Py S unit :=
  fun s w => (Ret tt, s, anotar (EvPrint texto) w).

(** [traceback.print_exc()] *)
Definition print_exc {S} (e : exn) : Py S unit :=
  fun s w => (Ret tt, s, anotar (EvPrintExc e) w).

End Modelo.

Arguments evento : clear implicits.
Arguments Mundo : clear implicits.
Arguments Py : clear implicits.

#[global] Instance Py_ret {W L S} : MRet (Py W L S) := fun A => ret.
#[global] Instance Py_bind {W L S} : MBind (Py W L S) := fun A B k m => bind m k.

(** [for x in l: corpo x] *)
Fixpoint for_each {W L S A} (l : list A) (corpo : A -> Py W L S unit) : Py W L S unit :=
  match l with
  | [] => mret tt
  | x :: l' => corpo x ;; for_each l' corpo
  end.

(** ** class Enlace *)

Module Enlace.
Section Enlace.
Context {W L Cb : Type}.
(** [linha.enviar(quadro)]: the transport's own send. *)
Variable linha_enviar : L -> bytes -> W -> res unit * W.
(** [cb(datagrama)]: the call of a registered receiver. *)
Variable chamar : Cb -> bytes -> W -> res unit * W.

Record t := { linha_serial : L; callback : option Cb; buffer : bytes }.

Definition set_callback (c : option Cb) (self : t) : t :=
  {| linha_serial := linha_serial self; callback := c; buffer := buffer self |}.

Definition set_buffer (b : bytes) (self : t) : t :=
  {| linha_serial := linha_serial self; callback := callback self; buffer := b |}.

(** [Enlace(linha_serial)]. The constructor also registers [__raw_recv]
    with the transport: from then on the transport hands each chunk it
    receives to [__raw_recv], which is how [__raw_recv] is run here. *)
Definition __init__ (linha : L) : t :=
  {| linha_serial := linha; callback := None; buffer := [] |}.

(** [None] is an argument Python accepts as well. *)
Definition registrar_recebedor (c : option Cb) : Py W L t unit :=
  atribuir (set_callback c).

(** [self.linha_serial.enviar(quadro)] *)
Definition linha_serial_enviar (linha : L) (quadro : bytes) : Py W L t unit :=
  fun self w =>
    let '(r, x) := linha_enviar linha quadro (ext w) in
    (r, self, {| ext := x; eventos := eventos w ++ [EvEnviar linha quadro] |}).

(** [self.callback(datagrama)]: calling [None] raises TypeError. *)
Definition callback_call (c : option Cb) (datagrama : bytes) : Py W L t unit :=
  match c with
  | None => levantar (Exc TypeError)
  | Some f =>
      fun self w =>
        let '(r, x) := chamar f datagrama (ext w) in
        (r, self, {| ext := x; eventos := eventos w ++ [EvCallback datagrama] |})
  end.

Definition enviar (datagrama : bytes) : Py W L t unit :=
  let datagrama_escapado := Bytes.replace datagrama ESC (ESC ++ ESC_ESC) in
  let datagrama_escapado := Bytes.replace datagrama_escapado END (ESC ++ ESC_END) in
  let quadro := (END ++ datagrama_escapado) ++ END in
  linha ← ler linha_serial;
  linha_serial_enviar linha quadro.

Definition __raw_recv (dados : bytes) : Py W L t unit :=
  c ← ler callback;
  match c with
  | None => mret tt
  | Some _ =>
      atribuir (fun self => set_buffer (buffer self ++ dados) self);;
      buf ← ler buffer;
      quadros ← levantar (Bytes.split buf END);
      ultimo ← levantar (index_last quadros);
      atribuir (set_buffer ultimo);;
      let quadros_completos := slice_init quadros in
      for_each quadros_completos (fun quadro_bruto =>
        match quadro_bruto with
        | [] => mret tt
        | _ :: _ =>
            tentar
              (let datagrama := Bytes.replace quadro_bruto (ESC ++ ESC_END) END in
               let datagrama := Bytes.replace datagrama (ESC ++ ESC_ESC) ESC in
               cb ← ler callback;
               callback_call cb datagrama)
              (fun e =>
                 print "ERRO: Ocorreu uma exceção na camada superior.";;
                 print_exc e)
        end)
  end.

End Enlace.
End Enlace.

(** [d[k]] on a dict: KeyError when the key is absent. *)
Definition dict_getitem {V} (d : gmap string V) (k : string) : res V :=
  match d !! k with
  | Some v => Ret v
  | None => Exc KeyError
  end.

(** ** class CamadaEnlace *)

Module CamadaEnlace.
Section CamadaEnlace.
Context {W L Cb : Type}.
Variable linha_enviar : L -> bytes -> W -> res unit * W.
Variable chamar : Cb -> bytes -> W -> res unit * W.

(** The receiver of every Enlace of a camada is the bound method
    [self._callback] of that camada. *)
Inductive metodo := Self_callback.

(** Class attribute, read nowhere in the module. *)
Definition ignore_checksum : bool := false.

Record t := { enlaces : gmap string (Enlace.t (L:=L) (Cb:=metodo)); callback : option Cb }.

Definition set_enlaces (m : gmap string (Enlace.t (L:=L) (Cb:=metodo))) (self : t) : t :=
  {| enlaces := m; callback := callback self |}.

Definition set_callback (c : option Cb) (self : t) : t :=
  {| enlaces := enlaces self; callback := c |}.

(** [CamadaEnlace(linhas_seriais)]: one Enlace per serial line, each
    with [self._callback] registered. *)
Definition __init__ (linhas_seriais : gmap string L) : t :=
  {| enlaces :=
       (fun linha_serial =>
          Enlace.set_callback (Some Self_callback) (Enlace.__init__ linha_serial))
         <$> linhas_seriais;
     callback := None |}.

Definition registrar_recebedor (c : option Cb) : Py W L t unit :=
  atribuir (set_callback c).

(** A method call on the Enlace object stored under [ip]: the object is
    shared with the dict, so what the method does to it is seen there. *)
Definition no_enlace {A} (ip : string) (enlace : Enlace.t)
    (m : Py W L (Enlace.t (L:=L) (Cb:=metodo)) A) : Py W L t A :=
  fun self w =>
    let '(r, enlace', w') := m enlace w in
    (r, set_enlaces (<[ip := enlace']> (enlaces self)) self, w').

Definition enviar (datagrama : bytes) (next_hop : string) : Py W L t unit :=
  enls ← ler enlaces;
  enlace ← levantar (dict_getitem enls next_hop);
  no_enlace next_hop enlace (Enlace.enviar linha_enviar datagrama).

Definition _callback (self : t) (_ : metodo) (datagrama : bytes) : W -> res unit * W :=
  match callback self with
  | Some f => chamar f datagrama
  | None => fun x => (Ret tt, x)
  end.

(** The transport of the peer [ip] hands a chunk to its Enlace. *)
Definition recebe_de (ip : string) (dados : bytes) : Py W L t unit :=
  fun self w =>
    match enlaces self !! ip with
    | Some enlace =>
        no_enlace ip enlace (Enlace.__raw_recv (_callback self) dados) self w
    | None => (Ret tt, self, w)
    end.

End CamadaEnlace.
End CamadaEnlace.

(** ** Observations and drivers *)

(** The arguments of the receiver's invocations, in order. *)
Definition chamadas {L} (evs : list (evento L)) : list bytes :=
  flat_map (fun e => match e with EvCallback d => [d] | _ => [] end) evs.

(** The frames handed to the transports, in order. *)
Definition enviados {L} (evs : list (evento L)) : list (L * bytes) :=
  flat_map (fun e => match e with EvEnviar l q => [(l, q)] | _ => [] end) evs.

(** The exceptions reported by [traceback.print_exc()], in order. *)
Definition relatados {L} (evs : list (evento L)) : list exn :=
  flat_map (fun e => match e with EvPrintExc x => [x] | _ => [] end) evs.

(** The transport delivers the chunks one after the other: one call of
    the receive callback per chunk, whatever the previous call did. *)
Fixpoint receber_todos {W L Cb} (chamar : Cb -> bytes -> W -> res unit * W)
    (chunks : list bytes) (self : Enlace.t) (w : Mundo W L) : Enlace.t * Mundo W L :=
  match chunks with
  | [] => (self, w)
  | dados :: chunks' =>
      let '(_, self', w') := Enlace.__raw_recv chamar dados self w in
      receber_todos chamar chunks' self' w'
  end.

(** What the rest of the program can do with an Enlace. *)
Inductive chamada {Cb : Type} :=
| Registrar (c : option Cb)
| Receber (dados : bytes)
| Enviar (datagrama : bytes).
Arguments chamada : clear implicits.

Section Execucao.
Context {W L Cb : Type}.
Variable linha_enviar : L -> bytes -> W -> res unit * W.
Variable chamar : Cb -> bytes -> W -> res unit * W.

Definition executar (op : chamada Cb) : Py W L (Enlace.t (L:=L) (Cb:=Cb)) unit :=
  match op with
  | Registrar c => Enlace.registrar_recebedor c
  | Receber dados => Enlace.__raw_recv chamar dados
  | Enviar datagrama => Enlace.enviar linha_enviar datagrama
  end.

Fixpoint executar_todas (ops : list (chamada Cb)) (self : Enlace.t) (w : Mundo W L)
    : Enlace.t * Mundo W L :=
  match ops with
  | [] => (self, w)
  | op :: ops' =>
      let '(_, self', w') := executar op self w in
      executar_todas ops' self' w'
  end.
End Execucao.

(** The stream an Enlace has taken in: the chunks received while a
    receiver was registered ([c] is the receiver at the start). *)
Fixpoint fluxo_aceito {Cb} (c : option Cb) (ops : list (chamada Cb)) : bytes :=
  match ops with
  | [] => []
  | Registrar c' :: ops' => fluxo_aceito c' ops'
  | Receber dados :: ops' =>
      match c with
      | Some _ => dados ++ fluxo_aceito c ops'
      | None => fluxo_aceito c ops'
      end
  | Enviar _ :: ops' => fluxo_aceito c ops'
  end.

(** ** The words of the specification, for comparison *)

(** "Replace every occurrence of the byte [a] with [novo]". *)
Definition substituir_cada (a : byte) (novo : bytes) (s : bytes) : bytes :=
  flat_map (fun b => if decide (b = a) then novo else [b]) s.

(** "ESC_END and ESC_ESC never appear unescaped": each occurrence of one
    of them comes right after an ESC. [apos_esc] says whether the byte
    before was an ESC. *)
Fixpoint codigos_so_apos_esc (apos_esc : bool) (s : bytes) : bool :=
  match s with
  | [] => true
  | b :: s' =>
      (if decide (b = Byte.xdc ∨ b = Byte.xdd) then apos_esc else true)
      && codigos_so_apos_esc (bool_decide (b = Byte.xdb)) s'
  end.

(** No END inside, and each ESC is followed by ESC_END or ESC_ESC. *)
Fixpoint bem_escapado (s : bytes) : bool :=
  match s with
  | [] => true
  | b :: s' =>
      if decide (b = Byte.xc0) then false
      else if decide (b = Byte.xdb) then
        match s' with
        | c :: s'' => bool_decide (c = Byte.xdc ∨ c = Byte.xdd) && bem_escapado s''
        | [] => false
        end
      else bem_escapado s'
  end.

(** The bytes strictly between the first and the last byte of a frame. *)
Definition corpo (quadro : bytes) : bytes := removelast (tail quadro).

(** What [split_go] does to its first segment when the next byte is not
    a separator. *)
Definition cons_head (b : byte) (qs : list bytes) : list bytes :=
  match qs with
  | q :: qs' => (b :: q) :: qs'
  | [] => [[b]]
  end.

(** A stream made of the segments [qs], each closed by the byte [e], and
    of the open tail [u]. *)
Definition juntar (e : byte) (qs : list bytes) (u : bytes) : bytes :=
  flat_map (fun q => q ++ [e]) qs ++ u.

(** What the two replacements of [Enlace.enviar] make of one byte. *)
Definition token (b : byte) : bytes :=
  if decide (b = Byte.xdb) then [Byte.xdb; Byte.xdd]
  else if decide (b = Byte.xc0) then [Byte.xdb; Byte.xdc]
  else [b].

(** ** The loop of [__raw_recv], summarised

    What one turn of the loop does to the world for the segment
    [quadro_bruto] when [cb] is the registered receiver, and what the
    whole loop does for the segments [qs] ([raw_recv_passo] below proves
    that this is what the code does). *)
Section Resumo.
Context {W L Cb : Type}.
Variable chamar : Cb -> bytes -> W -> res unit * W.

Definition entregar_um (cb : Cb) (w : Mundo W L) (quadro_bruto : bytes) : Mundo W L :=
  match quadro_bruto with
  | [] => w
  | _ :: _ =>
      let datagrama := desescapar quadro_bruto in
      let '(r, x) := chamar cb datagrama (ext w) in
      let w1 := {| ext := x; eventos := eventos w ++ [EvCallback datagrama] |} in
      match r with
      | Ret _ => w1
      | Exc e =>
          anotar (EvPrintExc e)
            (anotar (EvPrint "ERRO: Ocorreu uma exceção na camada superior.") w1)
      end
  end.

Definition entregar (cb : Cb) (qs : list bytes) (w : Mundo W L) : Mundo W L :=
  fold_left (entregar_um cb) qs w.
End Resumo.

(** A fresh Enlace on the line [l] with the receiver [cb] registered. *)
Definition enlace_novo {L Cb} (l : L) (cb : Cb) : Enlace.t :=
  Enlace.set_callback (Some cb) (Enlace.__init__ l).

(** ** A small concrete world, for the examples

    One line, one receiver, no outside state. [aceita] always returns,
    [recusa_x01] raises on the one-byte datagram 01 and returns otherwise. *)
Definition mundo0 : Mundo unit unit := {| ext := tt; eventos := [] |}.

Definition aceita (_ : unit) (_ : bytes) (x : unit) : res unit * unit := (Ret tt, x).

Definition recusa_x01 (_ : unit) (d : bytes) (x : unit) : res unit * unit :=
  if decide (d = [Byte.x01]) then (Exc (Falha 1), x) else (Ret tt, x).

(** ** Drivers for whole runs

    The datagrams a sequence of calls asks an Enlace to send, in order. *)
Definition datagramas_enviados {Cb} (ops : list (chamada Cb)) : list bytes :=
  flat_map (fun op => match op with Enviar d => [d] | _ => [] end) ops.

(** What the rest of the program and the transports can do with a
    CamadaEnlace: register the upper receiver, send to a next hop, and
    (the transport of the peer [ip]) hand in a chunk. *)
Inductive chamada_camada {Cb : Type} :=
| CRegistrar (c : option Cb)
| CEnviar (datagrama : bytes) (next_hop : string)
| CReceber (ip : string) (dados : bytes).
Arguments chamada_camada : clear implicits.

Section ExecucaoCamada.
Context {W L Cb : Type}.
Variable linha_enviar : L -> bytes -> W -> res unit * W.
Variable chamar : Cb -> bytes -> W -> res unit * W.

Definition executar_camada (op : chamada_camada Cb)
    : Py W L (CamadaEnlace.t (L:=L) (Cb:=Cb)) unit :=
  match op with
  | CRegistrar c => CamadaEnlace.registrar_recebedor c
  | CEnviar datagrama next_hop => CamadaEnlace.enviar linha_enviar datagrama next_hop
  | CReceber ip dados => CamadaEnlace.recebe_de chamar ip dados
  end.

Fixpoint executar_todas_camada (ops : list (chamada_camada Cb))
    (self : CamadaEnlace.t) (w : Mundo W L) : CamadaEnlace.t * Mundo W L :=
  match ops with
  | [] => (self, w)
  | op :: ops' =>
      let '(_, self', w') := executar_camada op self w in
      executar_todas_camada ops' self' w'
  end.
End ExecucaoCamada.

(** What a camada built from [linhas_seriais] keeps true of its links:
    the same addresses, each Enlace on its own line with the fan-in
    registered, and no END in a buffer. *)
Definition camada_ok {L Cb} (linhas_seriais : gmap string L)
    (self : CamadaEnlace.t (L:=L) (Cb:=Cb)) : Prop :=
  ∀ ip : string,
    match linhas_seriais !! ip with
    | Some l =>
        ∃ b : bytes,
          CamadaEnlace.enlaces self !! ip
          = Some {| Enlace.linha_serial := l;
                    Enlace.callback := Some CamadaEnlace.Self_callback;
                    Enlace.buffer := b |}
          ∧ Byte.xc0 ∉ b
    | None => CamadaEnlace.enlaces self !! ip = None
    end.

(** The stream the line of the peer [ip] has handed in: the chunks
    that arrived on that line, in order. *)
Definition fluxo_da_linha {Cb} (ip : string) (ops : list (chamada_camada Cb)) : bytes :=
  flat_map (fun op =>
              match op with
              | CReceber ip' dados => if decide (ip' = ip) then dados else []
              | _ => []
              end) ops.

(** A world with numbered lines, for the examples with several links. *)
Definition mundo_linhas : Mundo unit nat := {| ext := tt; eventos := [] |}.

Definition linha_aceita (_ : nat) (_ : bytes) (x : unit) : res unit * unit := (Ret tt, x).

(** * Properties *)

(** ** [replace] and [split] with the patterns of the protocol *)

Section BytesFacts.
Import Bytes.

Lemma replace1_nil (a : byte) (novo : bytes) : replace [] [a] novo = [].
Proof. reflexivity. Qed.

Lemma replace1_cons (a b : byte) (novo s : bytes) :
  replace (b :: s) [a] novo
  = (if decide (b = a) then novo else [b]) ++ replace s [a] novo.
Proof.
  unfold replace; simpl. destruct (decide (b = a)); reflexivity.
Qed.

(** Python's scan and the specification's "every occurrence" agree for
    a one-byte pattern. *)
Lemma replace1_substituir (a : byte) (novo s : bytes) :
  replace s [a] novo = substituir_cada a novo s.
Proof.
  induction s as [|b s IH]; [reflexivity|].
  rewrite replace1_cons, IH. reflexivity.
Qed.

Lemma replace2_nil (a c : byte) (novo : bytes) : replace [] [a; c] novo = [].
Proof. reflexivity. Qed.

Lemma replace2_hit (a c : byte) (novo s : bytes) :
  replace (a :: c :: s) [a; c] novo = novo ++ replace s [a; c] novo.
Proof.
  unfold replace; simpl. rewrite !decide_True by reflexivity. reflexivity.
Qed.

Lemma replace2_other (a c b : byte) (novo s : bytes) :
  b ≠ a -> replace (b :: s) [a; c] novo = b :: replace s [a; c] novo.
Proof.
  intros Hb. unfold replace; simpl. rewrite decide_False by assumption.
  reflexivity.
Qed.

Lemma replace2_miss (a c b d : byte) (novo s : bytes) :
  d ≠ c -> replace (b :: d :: s) [a; c] novo = b :: replace (d :: s) [a; c] novo.
Proof.
  intros Hd. unfold replace. cbn [replace_go startswith].
  destruct (decide (b = a)); [|reflexivity].
  rewrite (decide_False (P := d = c)) by assumption. reflexivity.
Qed.

Lemma split1_cons (e b : byte) (s : bytes) :
  split_go [e] 0 (b :: s)
  = if decide (b = e) then [] :: split_go [e] 0 s
    else cons_head b (split_go [e] 0 s).
Proof. simpl. destruct (decide (b = e)); reflexivity. Qed.

Lemma split1_not_nil (e : byte) (s : bytes) : split_go [e] 0 s ≠ [].
Proof.
  destruct s as [|b s]; [discriminate|].
  rewrite split1_cons. destruct (decide (b = e)); [discriminate|].
  destruct (split_go [e] 0 s); discriminate.
Qed.

(** A run of bytes without the separator stays in the first segment. *)
Lemma split1_free_app (e : byte) (u s : bytes) :
  e ∉ u ->
  split_go [e] 0 (u ++ s)
  = match split_go [e] 0 s with
    | q :: qs => (u ++ q) :: qs
    | [] => [u]
    end.
Proof.
  induction u as [|b u IH]; intros Hu.
  - pose proof (split1_not_nil e s) as Hne. simpl.
    destruct (split_go [e] 0 s); [congruence | reflexivity].
  - rewrite <- app_comm_cons, split1_cons.
    rewrite decide_False by (intros ->; apply Hu; left).
    rewrite IH by (intros ?; apply Hu; right; assumption).
    destruct (split_go [e] 0 s); reflexivity.
Qed.

Lemma split1_juntar (e : byte) (qs : list bytes) (u : bytes) :
  Forall (fun q => e ∉ q) qs -> e ∉ u ->
  split_go [e] 0 (juntar e qs u) = qs ++ [u].
Proof.
  intros Hqs Hu. induction Hqs as [|q qs Hq _ IH].
  - unfold juntar; simpl. rewrite <- (app_nil_r u) at 1.
    rewrite split1_free_app by assumption. simpl.
    rewrite app_nil_r. reflexivity.
  - unfold juntar in *. simpl. rewrite <- !app_assoc.
    rewrite split1_free_app by assumption. simpl.
    rewrite decide_True by reflexivity. rewrite IH, app_nil_r. reflexivity.
Qed.

Lemma juntar_existe (e : byte) (s : bytes) :
  ∃ qs u, s = juntar e qs u ∧ Forall (fun q => e ∉ q) qs ∧ e ∉ u.
Proof.
  induction s as [|b s (qs & u & -> & Hqs & Hu)].
  - exists [], []. repeat split; [constructor | apply not_elem_of_nil].
  - destruct (decide (b = e)) as [->|Hb].
    + exists ([] :: qs), u. repeat split; [|assumption].
      constructor; [apply not_elem_of_nil | assumption].
    + destruct qs as [|q qs].
      * exists [], (b :: u). repeat split; [constructor|].
        rewrite not_elem_of_cons. split; [congruence | assumption].
      * exists ((b :: q) :: qs), u. repeat split; [|assumption].
        inversion Hqs; subst. constructor; [|assumption].
        rewrite not_elem_of_cons. split; [congruence | assumption].
Qed.

Lemma juntar_app (e : byte) (qs1 qs2 : list bytes) (u1 u2 s : bytes) :
  u1 ++ s = juntar e qs2 u2 ->
  juntar e qs1 u1 ++ s = juntar e (qs1 ++ qs2) u2.
Proof.
  unfold juntar. intros H. rewrite flat_map_app, <- !app_assoc, H.
  reflexivity.
Qed.

End BytesFacts.

(** ** Byte stuffing *)

Section Stuffing.
Import Bytes.

Lemma escapar_nil : escapar [] = [].
Proof. reflexivity. Qed.

Lemma escapar_cons (b : byte) (d : bytes) :
  escapar (b :: d) = token b ++ escapar d.
Proof.
  unfold escapar, token, ESC, END, ESC_ESC, ESC_END; cbn zeta.
  rewrite replace1_cons.
  destruct (decide (b = Byte.xdb)) as [->|Hesc].
  - cbn [app]. rewrite !replace1_cons.
    rewrite !decide_False by discriminate. reflexivity.
  - cbn [app]. rewrite replace1_cons.
    destruct (decide (b = Byte.xc0)); reflexivity.
Qed.

Lemma escapar_sem_END (d : bytes) : Byte.xc0 ∉ escapar d.
Proof.
  induction d as [|b d IH]; [apply not_elem_of_nil|].
  rewrite escapar_cons, not_elem_of_app. split; [|assumption].
  unfold token. repeat case_decide;
    rewrite ?not_elem_of_cons; repeat split;
    try discriminate; try congruence; apply not_elem_of_nil.
Qed.

Lemma escapar_vazio (d : bytes) : escapar d = [] ↔ d = [].
Proof.
  split; [|intros ->; reflexivity].
  destruct d as [|b d]; [reflexivity|].
  rewrite escapar_cons. unfold token. repeat case_decide; discriminate.
Qed.

(** Undoing END-escaping gives back the datagram with only its ESC
    bytes escaped. *)
Lemma desfaz_END (d : bytes) :
  replace (escapar d) (ESC ++ ESC_END) END = replace d ESC (ESC ++ ESC_ESC).
Proof.
  unfold ESC, END, ESC_ESC, ESC_END; cbn [app].
  induction d as [|b d IH]; [reflexivity|].
  rewrite escapar_cons, replace1_cons. unfold token.
  destruct (decide (b = Byte.xdb)) as [->|Hesc].
  - cbn [app]. rewrite replace2_miss by discriminate.
    rewrite replace2_other by discriminate. rewrite IH. reflexivity.
  - destruct (decide (b = Byte.xc0)) as [->|Hend].
    + cbn [app]. rewrite replace2_hit, IH. reflexivity.
    + cbn [app]. rewrite replace2_other by assumption.
      rewrite IH. reflexivity.
Qed.

Lemma desfaz_ESC (d : bytes) :
  replace (replace d ESC (ESC ++ ESC_ESC)) (ESC ++ ESC_ESC) ESC = d.
Proof.
  unfold ESC, ESC_ESC; cbn [app].
  induction d as [|b d IH]; [reflexivity|].
  rewrite replace1_cons.
  destruct (decide (b = Byte.xdb)) as [->|Hesc].
  - cbn [app]. rewrite replace2_hit, IH. reflexivity.
  - cbn [app]. rewrite replace2_other by assumption.
    rewrite IH. reflexivity.
Qed.

End Stuffing.

Lemma ida_e_volta (d : bytes) : desescapar (escapar d) = d.
Proof. unfold desescapar; cbn zeta. rewrite desfaz_END. apply desfaz_ESC. Qed.

(** C1. Unescaping what [Enlace.enviar] escaped gives the datagram back,
    for every byte sequence: the substitutions ESC+ESC_END -> END and then
    ESC+ESC_ESC -> ESC of the receive path, applied to
    [d.replace(ESC, ESC+ESC_ESC).replace(END, ESC+ESC_END)], yield [d]. *)
Theorem desescapar_escapar (d : bytes) :
  Bytes.replace
    (Bytes.replace
       (Bytes.replace (Bytes.replace d ESC (ESC ++ ESC_ESC)) END (ESC ++ ESC_END))
       (ESC ++ ESC_END) END)
    (ESC ++ ESC_ESC) ESC = d
  ∧ desescapar (escapar d) = d.
Proof. split; apply ida_e_volta. Qed.

(** ** The receive path *)

Section Recepcao.
Context {W L Cb : Type}.
Variable chamar : Cb -> bytes -> W -> res unit * W.
Implicit Types (self : Enlace.t (L:=L) (Cb:=Cb)) (w : Mundo W L) (cb : Cb).

Lemma registrar_recebedor_novo (l : L) cb w :
  Enlace.registrar_recebedor (Some cb) (Enlace.__init__ l) w
  = (Ret tt, enlace_novo l cb, w).
Proof. reflexivity. Qed.

(** Without a receiver the call returns at once. *)
Lemma raw_recv_sem_recebedor self w (dados : bytes) :
  Enlace.callback self = None ->
  Enlace.__raw_recv chamar dados self w = (Ret tt, self, w).
Proof.
  intros Hcb. unfold Enlace.__raw_recv, mbind, Py_bind, bind, ler.
  rewrite Hcb. reflexivity.
Qed.

(** One call with a receiver registered: the buffer becomes the open
    tail, the closed segments go through the loop in order, and the
    call returns normally whatever the receiver does. *)
Lemma raw_recv_passo cb self w (dados : bytes) (qs : list bytes) (u : bytes) :
  Enlace.callback self = Some cb ->
  Enlace.buffer self ++ dados = juntar Byte.xc0 qs u ->
  Forall (fun q => Byte.xc0 ∉ q) qs -> Byte.xc0 ∉ u ->
  Enlace.__raw_recv chamar dados self w
  = (Ret tt, Enlace.set_buffer u self, entregar chamar cb qs w).
Proof.
  intros Hcb Hj Hqs Hu.
  unfold Enlace.__raw_recv.
  unfold mbind, Py_bind, bind, ler, atribuir, levantar. rewrite Hcb.
  cbn [Enlace.buffer Enlace.set_buffer]. rewrite Hj.
  unfold Bytes.split, END. rewrite split1_juntar by assumption.
  unfold index_last. rewrite last_snoc.
  unfold slice_init. rewrite removelast_last.
  change (Enlace.set_buffer u (Enlace.set_buffer (juntar Byte.xc0 qs u) self))
    with (Enlace.set_buffer u self).
  assert (Hcb' : Enlace.callback (Enlace.set_buffer u self) = Some cb) by exact Hcb.
  generalize dependent (Enlace.set_buffer u self). intros s Hs. clear - Hs.
  revert w. induction qs as [|q qs IH]; intros w; [reflexivity|].
  cbn [for_each]. unfold mbind at 1, Py_bind at 1, bind at 1.
  unfold entregar. cbn [fold_left].
  fold (entregar chamar cb qs (entregar_um chamar cb w q)).
  rewrite <- IH. clear IH.
  destruct q as [|b q]; [reflexivity|].
  unfold tentar, Enlace.callback_call. rewrite Hs.
  unfold entregar_um, desescapar. cbn zeta.
  destruct (chamar cb _ (ext w)) as [[[]|e] x]; reflexivity.
Qed.

Lemma chamadas_app (evs1 evs2 : list (evento L)) :
  chamadas (evs1 ++ evs2) = chamadas evs1 ++ chamadas evs2.
Proof. apply flat_map_app. Qed.

Lemma enviados_app (evs1 evs2 : list (evento L)) :
  enviados (evs1 ++ evs2) = enviados evs1 ++ enviados evs2.
Proof. apply flat_map_app. Qed.

Lemma relatados_app (evs1 evs2 : list (evento L)) :
  relatados (evs1 ++ evs2) = relatados evs1 ++ relatados evs2.
Proof. apply flat_map_app. Qed.

Lemma chamadas_entregar_um cb w (q : bytes) :
  chamadas (eventos (entregar_um chamar cb w q))
  = chamadas (eventos w) ++ match q with [] => [] | _ :: _ => [desescapar q] end.
Proof.
  destruct q as [|b q]; [symmetry; apply app_nil_r|].
  unfold entregar_um. cbn zeta.
  destruct (chamar cb _ (ext w)) as [[[]|e] x]; cbn [eventos anotar];
    rewrite ?chamadas_app; cbn; rewrite ?app_nil_r; reflexivity.
Qed.

(** The receiver is called once per non-empty segment, in the order of
    the segments, with the unescaped segment. *)
Lemma chamadas_entregar cb (qs : list bytes) w :
  chamadas (eventos (entregar chamar cb qs w))
  = chamadas (eventos w) ++ map desescapar (filter (fun q => q ≠ []) qs).
Proof.
  revert w. induction qs as [|q qs IH]; intros w.
  - symmetry; apply app_nil_r.
  - unfold entregar. cbn [fold_left].
    fold (entregar chamar cb qs (entregar_um chamar cb w q)).
    rewrite IH, chamadas_entregar_um, <- app_assoc. f_equal.
    destruct q as [|b q].
    + rewrite filter_cons_False by (intros H; apply H; reflexivity).
      reflexivity.
    + rewrite filter_cons_True by discriminate. reflexivity.
Qed.

Lemma enviados_entregar cb (qs : list bytes) w :
  enviados (eventos (entregar chamar cb qs w)) = enviados (eventos w).
Proof.
  revert w. induction qs as [|q qs IH]; intros w; [reflexivity|].
  unfold entregar. cbn [fold_left].
  fold (entregar chamar cb qs (entregar_um chamar cb w q)).
  rewrite IH. destruct q as [|b q]; [reflexivity|].
  unfold entregar_um. cbn zeta.
  destruct (chamar cb _ (ext w)) as [[[]|e] x]; cbn [eventos anotar];
    rewrite ?enviados_app; cbn; rewrite ?app_nil_r; reflexivity.
Qed.

(** A turn of the loop only adds reports, and a raising call is
    reported with its exception. *)
Lemma relatados_entregar_um cb w (q : bytes) :
  ∃ outros, relatados (eventos (entregar_um chamar cb w q))
            = relatados (eventos w) ++ outros.
Proof.
  destruct q as [|b q]; [exists []; symmetry; apply app_nil_r|].
  unfold entregar_um. cbn zeta.
  destruct (chamar cb _ (ext w)) as [[[]|e] x]; cbn [eventos anotar].
  - exists []. rewrite relatados_app. reflexivity.
  - exists [e]. rewrite !relatados_app, <- !app_assoc. reflexivity.
Qed.

Lemma relatados_entregar_um_falha cb w (q : bytes) (e : exn) (x : W) :
  q ≠ [] ->
  chamar cb (desescapar q) (ext w) = (Exc e, x) ->
  relatados (eventos (entregar_um chamar cb w q)) = relatados (eventos w) ++ [e].
Proof.
  intros Hq Hraise. destruct q as [|b q]; [congruence|].
  unfold entregar_um. cbn zeta. rewrite Hraise. cbn [eventos anotar].
  rewrite !relatados_app, <- !app_assoc. reflexivity.
Qed.

Lemma entregar_app cb (qs1 qs2 : list bytes) w :
  entregar chamar cb (qs1 ++ qs2) w
  = entregar chamar cb qs2 (entregar chamar cb qs1 w).
Proof. apply fold_left_app. Qed.

End Recepcao.

(** ** Streams of frames *)

Section Fluxo.
Context {W L Cb : Type}.
Variable chamar : Cb -> bytes -> W -> res unit * W.
Implicit Types (self : Enlace.t (L:=L) (Cb:=Cb)) (w : Mundo W L) (cb : Cb).

Lemma juntar_inj (e : byte) (qs1 qs2 : list bytes) (u1 u2 : bytes) :
  Forall (fun q => e ∉ q) qs1 -> e ∉ u1 ->
  Forall (fun q => e ∉ q) qs2 -> e ∉ u2 ->
  juntar e qs1 u1 = juntar e qs2 u2 -> qs1 = qs2 ∧ u1 = u2.
Proof.
  intros H1 Hu1 H2 Hu2 Heq.
  pose proof (split1_juntar e qs1 u1 H1 Hu1) as E1.
  pose proof (split1_juntar e qs2 u2 H2 Hu2) as E2.
  rewrite Heq, E2 in E1. apply app_inj_tail in E1 as [-> ->]. split; reflexivity.
Qed.

Lemma juntar_livre (e : byte) (qs : list bytes) (u s : bytes) :
  e ∉ s -> Forall (fun q => e ∉ q) qs -> e ∉ u ->
  s = juntar e qs u -> qs = [] ∧ u = s.
Proof.
  intros Hs Hqs Hu Heq.
  destruct (juntar_inj e [] qs s u) as [<- <-];
    [constructor | assumption | assumption | assumption | exact Heq |].
  split; reflexivity.
Qed.

Lemma quadro_de_app_juntar (d : bytes) (qs : list bytes) (u : bytes) :
  quadro_de d ++ juntar Byte.xc0 qs u
  = juntar Byte.xc0 ([] :: escapar d :: qs) u.
Proof.
  unfold quadro_de, juntar, END. cbn [flat_map app].
  rewrite <- !app_assoc. reflexivity.
Qed.

Lemma quadro_de_juntar (d : bytes) :
  quadro_de d = juntar Byte.xc0 [[]; escapar d] [].
Proof.
  rewrite <- quadro_de_app_juntar. unfold juntar. cbn [flat_map app].
  symmetry; apply app_nil_r.
Qed.

Lemma segmentos_de_quadros (ds : list bytes) :
  Forall (fun q => Byte.xc0 ∉ q) (flat_map (fun d => [[]; escapar d]) ds).
Proof.
  induction ds as [|d ds IH]; [constructor|].
  cbn [flat_map app]. repeat constructor; [apply not_elem_of_nil | | exact IH].
  apply escapar_sem_END.
Qed.

Lemma juntar_vazios (e : byte) (n : nat) :
  juntar e (repeat [] n) [] = repeat e n.
Proof.
  unfold juntar. rewrite app_nil_r.
  induction n as [|n IH]; [reflexivity|].
  cbn [repeat flat_map app]. rewrite IH. reflexivity.
Qed.

Lemma entregar_vazios cb (n : nat) w :
  entregar chamar cb (repeat [] n) w = w.
Proof. induction n as [|n IH]; [reflexivity | exact IH]. Qed.

(** The frames of the datagrams [ds], one after the other, make the
    receiver be called with the non-empty ones, in order. *)
Lemma chamadas_de_quadros cb (ds : list bytes) w :
  chamadas (eventos (entregar chamar cb (flat_map (fun d => [[]; escapar d]) ds) w))
  = chamadas (eventos w) ++ filter (fun d => d ≠ []) ds.
Proof.
  rewrite chamadas_entregar. f_equal.
  induction ds as [|d ds IH]; [reflexivity|].
  cbn [flat_map app].
  rewrite filter_cons_False by (intros H; apply H; reflexivity).
  destruct (decide (d = [])) as [->|Hd].
  - rewrite !filter_cons_False by (intros H; apply H; reflexivity). exact IH.
  - rewrite filter_cons_True by (rewrite escapar_vazio; exact Hd).
    rewrite filter_cons_True by exact Hd.
    cbn [map]. rewrite ida_e_volta, IH. reflexivity.
Qed.

(** [__raw_recv] always completes: no exception leaves it. *)
Lemma raw_recv_retorna self w (dados : bytes) :
  (Enlace.__raw_recv chamar dados self w).1.1 = Ret tt.
Proof.
  destruct (Enlace.callback self) as [cb|] eqn:Hcb.
  - destruct (juntar_existe Byte.xc0 (Enlace.buffer self ++ dados))
      as (qs & u & Hj & Hqs & Hu).
    rewrite (raw_recv_passo chamar cb self w dados qs u) by assumption.
    reflexivity.
  - rewrite raw_recv_sem_recebedor by assumption. reflexivity.
Qed.

Lemma set_buffer_buffer self : Enlace.set_buffer (Enlace.buffer self) self = self.
Proof. destruct self; reflexivity. Qed.

(** Chunks fed one after the other are decoded as the one stream they
    make up: fragmentation does not show. *)
Lemma receber_todos_fluxo cb (chunks : list bytes) self w (qs : list bytes) (u : bytes) :
  Enlace.callback self = Some cb ->
  Byte.xc0 ∉ Enlace.buffer self ->
  Enlace.buffer self ++ concat chunks = juntar Byte.xc0 qs u ->
  Forall (fun q => Byte.xc0 ∉ q) qs -> Byte.xc0 ∉ u ->
  receber_todos chamar chunks self w
  = (Enlace.set_buffer u self, entregar chamar cb qs w).
Proof.
  revert self w qs.
  induction chunks as [|dados chunks IH]; intros self w qs Hcb Hb Hj Hqs Hu.
  - cbn [concat] in Hj. rewrite app_nil_r in Hj.
    apply juntar_livre in Hj as [-> ->]; try assumption.
    rewrite set_buffer_buffer. reflexivity.
  - cbn [receber_todos].
    destruct (juntar_existe Byte.xc0 (Enlace.buffer self ++ dados))
      as (qs1 & u1 & Hj1 & Hqs1 & Hu1).
    rewrite (raw_recv_passo chamar cb self w dados qs1 u1) by assumption.
    destruct (juntar_existe Byte.xc0 (u1 ++ concat chunks))
      as (qs2 & u2 & Hj2 & Hqs2 & Hu2).
    assert (Hall : Enlace.buffer self ++ concat (dados :: chunks)
                   = juntar Byte.xc0 (qs1 ++ qs2) u2).
    { cbn [concat]. rewrite app_assoc, Hj1. apply juntar_app. exact Hj2. }
    rewrite Hall in Hj.
    apply juntar_inj in Hj as [<- <-]; try assumption;
      [|apply Forall_app; split; assumption].
    rewrite (IH (Enlace.set_buffer u1 self) _ qs2); try assumption.
    + rewrite entregar_app. reflexivity.
  Qed.

End Fluxo.

(** ** Claims about the receive path *)

Section Claims_recv.
Context {W L Cb : Type}.
Variable chamar : Cb -> bytes -> W -> res unit * W.
Implicit Types (self : Enlace.t (L:=L) (Cb:=Cb)) (w : Mundo W L) (cb : Cb) (l : L).





(** C8. Without a registered receiver [__raw_recv] does nothing: the
    chunk is dropped, nothing is delivered, and the Enlace (buffer
    included) and the world are as before the call. *)
Theorem sem_recebedor_descarta self w (dados : bytes) :
  Enlace.callback self = None ->
  Enlace.__raw_recv chamar dados self w = (Ret tt, self, w).
Proof. apply raw_recv_sem_recebedor. Qed.

End Claims_recv.

(** ** The buffer invariant *)

Section Invariante.
Context {W L Cb : Type}.
Variable linha_enviar : L -> bytes -> W -> res unit * W.
Variable chamar : Cb -> bytes -> W -> res unit * W.
Implicit Types (self : Enlace.t (L:=L) (Cb:=Cb)) (w : Mundo W L) (cb : Cb) (l : L).

(** What [Enlace.enviar] does: one call of the transport's send with
    the frame, and nothing else. *)
Lemma enviar_run self w (d : bytes) :
  Enlace.enviar linha_enviar d self w
  = let '(r, x) := linha_enviar (Enlace.linha_serial self) (quadro_de d) (ext w) in
    (r, self,
     {| ext := x;
        eventos := eventos w ++ [EvEnviar (Enlace.linha_serial self) (quadro_de d)] |}).
Proof. reflexivity. Qed.

Lemma juntar_prefixo (e : byte) (qs : list bytes) :
  qs = [] ∨ ∃ p, flat_map (fun q => q ++ [e]) qs = p ++ [e].
Proof.
  destruct qs as [|q qs _] using rev_ind; [left; reflexivity|].
  right. exists (flat_map (fun q => q ++ [e]) qs ++ q).
  rewrite flat_map_app. cbn [flat_map]. rewrite app_nil_r, app_assoc.
  reflexivity.
Qed.

Lemma invariante_do_buffer (ops : list (chamada Cb)) self w :
  Byte.xc0 ∉ Enlace.buffer self ->
  ∃ qs,
    Enlace.buffer self ++ fluxo_aceito (Enlace.callback self) ops
    = juntar Byte.xc0 qs
        (Enlace.buffer (executar_todas linha_enviar chamar ops self w).1)
    ∧ Forall (fun q => Byte.xc0 ∉ q) qs
    ∧ Byte.xc0 ∉ Enlace.buffer (executar_todas linha_enviar chamar ops self w).1.
Proof.
  revert self w. induction ops as [|op ops IH]; intros self w Hb.
  - exists []. cbn. rewrite app_nil_r. repeat split; [constructor | exact Hb].
  - destruct op as [c | dados | d]; cbn [executar_todas executar fluxo_aceito].
    + apply (IH (Enlace.set_callback c self) w). exact Hb.
    + destruct (Enlace.callback self) as [cb|] eqn:Hcb.
      * destruct (juntar_existe Byte.xc0 (Enlace.buffer self ++ dados))
          as (qs1 & u1 & Hj1 & Hqs1 & Hu1).
        rewrite (raw_recv_passo chamar cb self w dados qs1 u1) by assumption.
        destruct (IH (Enlace.set_buffer u1 self) (entregar chamar cb qs1 w) Hu1)
          as (qs2 & Hj2 & Hqs2 & Hu2).
        exists (qs1 ++ qs2). split; [|split; [apply Forall_app; split|]];
          try assumption.
        rewrite app_assoc, Hj1. apply juntar_app.
        cbn [Enlace.buffer Enlace.set_buffer Enlace.callback] in Hj2.
        rewrite Hcb in Hj2. exact Hj2.
      * rewrite (raw_recv_sem_recebedor chamar self w dados Hcb).
        specialize (IH self w Hb). rewrite Hcb in IH. exact IH.
    + rewrite enviar_run.
      destruct (linha_enviar _ _ _) as [r x].
      apply (IH self). exact Hb.
Qed.

(** C10. From the empty buffer of a new Enlace, after any sequence of
    calls (receivers registered or removed, chunks received with or
    without a receiver, a receiver that raises or not, datagrams sent),
    the buffer holds no END byte: it is what the stream taken in has
    after its last END, or the whole of it when it has no END. Every
    call of [__raw_recv] on the way completes. *)
Theorem buffer_sem_END l w (ops : list (chamada Cb)) :
  let '(self', w') := executar_todas linha_enviar chamar ops (Enlace.__init__ l) w in
  (Byte.xc0 ∉ Enlace.buffer self')
  ∧ (∃ antes : bytes,
        fluxo_aceito None ops = antes ++ Enlace.buffer self'
        ∧ (antes = [] ∨ ∃ p, antes = p ++ END))
  ∧ ∀ dados : bytes, (Enlace.__raw_recv chamar dados self' w').1.1 = Ret tt.
Proof.
  destruct (invariante_do_buffer ops (Enlace.__init__ l) w) as (qs & Hj & Hqs & Hu);
    [apply not_elem_of_nil|].
  destruct (executar_todas linha_enviar chamar ops (Enlace.__init__ l) w)
    as [self' w'].
  cbn [fst] in *. split; [exact Hu|]. split.
  - exists (flat_map (fun q => q ++ [Byte.xc0]) qs). split; [exact Hj|].
    destruct (juntar_prefixo Byte.xc0 qs) as [-> | Hp]; [left; reflexivity|].
    right. exact Hp.
  - intros dados. apply raw_recv_retorna.
Qed.

End Invariante.

(** ** The send path *)

Section Claims_envio.
Context {W L Cb : Type}.
Variable linha_enviar : L -> bytes -> W -> res unit * W.
Variable chamar : Cb -> bytes -> W -> res unit * W.

(** C6. [Enlace.enviar] hands the transport, in one call, exactly
    END + d' + END, where d' is [d] with every ESC replaced by
    ESC ESC_ESC first and then every END replaced by ESC ESC_END; it
    leaves the Enlace as it is and returns what the transport's send
    returns. For the empty datagram the frame is END END. *)
Theorem enviar_quadro (self : Enlace.t (L:=L) (Cb:=Cb)) (w : Mundo W L) (d : bytes) :
  let quadro :=
    [Byte.xc0]
      ++ substituir_cada Byte.xc0 [Byte.xdb; Byte.xdc]
           (substituir_cada Byte.xdb [Byte.xdb; Byte.xdd] d)
      ++ [Byte.xc0] in
  Enlace.enviar linha_enviar d self w
  = (let '(r, x) := linha_enviar (Enlace.linha_serial self) quadro (ext w) in
     (r, self,
      {| ext := x; eventos := eventos w ++ [EvEnviar (Enlace.linha_serial self) quadro] |}))
  ∧ enviados (eventos (Enlace.enviar linha_enviar d self w).2)
    = enviados (eventos w) ++ [(Enlace.linha_serial self, quadro)]
  ∧ enviados (eventos (Enlace.enviar linha_enviar [] self w).2)
    = enviados (eventos w) ++ [(Enlace.linha_serial self, [Byte.xc0; Byte.xc0])].
Proof.
  cbn zeta.
  assert (Hq : quadro_de d
               = [Byte.xc0]
                   ++ substituir_cada Byte.xc0 [Byte.xdb; Byte.xdc]
                        (substituir_cada Byte.xdb [Byte.xdb; Byte.xdd] d)
                   ++ [Byte.xc0]).
  { unfold quadro_de, escapar, END, ESC, ESC_END, ESC_ESC. cbn zeta.
    rewrite !replace1_substituir. reflexivity. }
  rewrite enviar_run, Hq. split; [reflexivity|]. split.
  - destruct (linha_enviar _ _ _) as [r x]. cbn [snd eventos].
    rewrite enviados_app. reflexivity.
  - rewrite enviar_run.
    destruct (linha_enviar _ _ _) as [r x]. cbn [snd eventos].
    rewrite enviados_app. reflexivity.
Qed.

Lemma bem_escapado_token (b : byte) (s : bytes) :
  bem_escapado (token b ++ s) = bem_escapado s.
Proof.
  unfold token.
  destruct (decide (b = Byte.xdb)) as [->|Hesc];
    [|destruct (decide (b = Byte.xc0)) as [->|Hend]];
    cbn [app bem_escapado].
  - rewrite decide_False by discriminate. rewrite decide_True by reflexivity.
    rewrite bool_decide_eq_true_2 by (right; reflexivity). reflexivity.
  - rewrite decide_False by discriminate. rewrite decide_True by reflexivity.
    rewrite bool_decide_eq_true_2 by (left; reflexivity). reflexivity.
  - rewrite (decide_False (P := b = Byte.xc0)) by assumption.
    rewrite (decide_False (P := b = Byte.xdb)) by assumption.
    reflexivity.
Qed.

Lemma corpo_quadro_de (d : bytes) : corpo (quadro_de d) = escapar d.
Proof. unfold corpo, quadro_de, END. cbn [app tail]. apply removelast_last. Qed.

(** In the frame [Enlace.enviar] makes, the body (the bytes between the
    two END delimiters) holds no END byte, and each ESC in it is
    followed by ESC_END or ESC_ESC. *)
Theorem corpo_bem_escapado (d : bytes) :
  bem_escapado (corpo (quadro_de d)) = true.
Proof.
  rewrite corpo_quadro_de.
  induction d as [|b d IH]; [reflexivity|].
  rewrite escapar_cons, bem_escapado_token. exact IH.
Qed.

Lemma codigos_token (p : bool) (b : byte) (s : bytes) :
  codigos_so_apos_esc p (token b ++ s)
  = (if decide (b = Byte.xdc ∨ b = Byte.xdd) then p else true)
    && codigos_so_apos_esc false s.
Proof.
  unfold token.
  destruct (decide (b = Byte.xdb)) as [->|Hesc];
    [|destruct (decide (b = Byte.xc0)) as [->|Hend]];
    cbn [app codigos_so_apos_esc].
  - rewrite !(decide_False (P := Byte.xdb = Byte.xdc ∨ Byte.xdb = Byte.xdd))
      by (intros [?|?]; discriminate).
    rewrite (decide_True (P := Byte.xdd = Byte.xdc ∨ Byte.xdd = Byte.xdd))
      by (right; reflexivity).
    rewrite bool_decide_eq_true_2 by reflexivity.
    rewrite bool_decide_eq_false_2 by discriminate. reflexivity.
  - rewrite (decide_False (P := Byte.xc0 = Byte.xdc ∨ Byte.xc0 = Byte.xdd))
      by (intros [?|?]; discriminate).
    rewrite (decide_False (P := Byte.xdb = Byte.xdc ∨ Byte.xdb = Byte.xdd))
      by (intros [?|?]; discriminate).
    rewrite (decide_True (P := Byte.xdc = Byte.xdc ∨ Byte.xdc = Byte.xdd))
      by (left; reflexivity).
    rewrite bool_decide_eq_true_2 by reflexivity.
    rewrite bool_decide_eq_false_2 by discriminate. reflexivity.
  - rewrite bool_decide_eq_false_2 by assumption. reflexivity.
Qed.

Lemma codigos_escapar (d : bytes) :
  codigos_so_apos_esc false (escapar d) = true ↔ (Byte.xdc ∉ d) ∧ (Byte.xdd ∉ d).
Proof.
  induction d as [|b d IH].
  - split; [intros _; split; apply not_elem_of_nil | reflexivity].
  - rewrite escapar_cons, codigos_token, !not_elem_of_cons.
    destruct (decide (b = Byte.xdc ∨ b = Byte.xdd)) as [Hb|Hb].
    + cbn [andb]. split; [discriminate|].
      intros [[H1 _] [H2 _]]. destruct Hb; congruence.
    + cbn [andb]. rewrite IH. split.
      * intros [H1 H2]. repeat split; try assumption;
          intros <-; apply Hb; [left | right]; reflexivity.
      * intros [[_ H1] [_ H2]]. split; assumption.
Qed.

(** C7 (as amended). For every datagram that holds no ESC_END and no
    ESC_ESC byte, the body of the frame [Enlace.enviar] makes (the bytes
    between the two END delimiters) never contains ESC_END or ESC_ESC
    unescaped: each occurrence comes right after an ESC put there by the
    escaping step. The restriction is the exact one: a datagram that
    holds such a byte has it in the body with no ESC before it. *)
Theorem codigos_so_escapados (d : bytes) :
  (Byte.xdc ∉ d -> Byte.xdd ∉ d ->
   codigos_so_apos_esc false (corpo (quadro_de d)) = true)
  ∧ (codigos_so_apos_esc false (corpo (quadro_de d)) = true ->
     (Byte.xdc ∉ d) ∧ (Byte.xdd ∉ d)).
Proof.
  rewrite corpo_quadro_de. split.
  - intros H1 H2. apply codigos_escapar. split; assumption.
  - apply codigos_escapar.
Qed.

(** C9. [CamadaEnlace.enviar] to an address that is not a key of
    [enlaces] raises KeyError to its caller; nothing is handed to a
    transport, and the camada, with every Enlace in it, and the world
    are unchanged. *)
Theorem enviar_destino_desconhecido
    (self : CamadaEnlace.t (L:=L) (Cb:=Cb)) (w : Mundo W L)
    (datagrama : bytes) (next_hop : string) :
  CamadaEnlace.enlaces self !! next_hop = None ->
  CamadaEnlace.enviar linha_enviar datagrama next_hop self w = (Exc KeyError, self, w).
Proof.
  intros Hk. unfold CamadaEnlace.enviar, mbind, Py_bind, bind, ler, levantar.
  unfold dict_getitem. rewrite Hk. reflexivity.
Qed.

End Claims_envio.

(** ** The claims at concrete inputs *)

Section Exemplos.
Import Byte.

Example quadro_01_C0_02 :
  quadro_de [x01; xc0; x02] = [xc0; x01; xdb; xdc; x02; xc0].
Proof. reflexivity. Qed.

Example split_C0_C0_C0_41_C0 :
  Bytes.split [xc0; xc0; xc0; x41; xc0] END = Ret [[]; []; []; [x41]; []].
Proof. reflexivity. Qed.

Example replace_sem_sobreposicao :
  Bytes.replace [xdb; xdb; xdc; xdc] (ESC ++ ESC_END) END = [xdb; xc0; xdc].
Proof. reflexivity. Qed.

Example ESC_solto_passa :
  desescapar [x01; xdb] = [x01; xdb] ∧ desescapar [xdb; x01] = [xdb; x01].
Proof. split; reflexivity. Qed.

Example codigos_apos_esc_ok :
  codigos_so_apos_esc false (corpo (quadro_de [xc0; xdb])) = true.
Proof. reflexivity. Qed.







Lemma sem_recebedor_descarta_witness :
  Enlace.callback (Enlace.__init__ (Cb:=unit) tt) = None
  ∧ Enlace.__raw_recv aceita [xc0; x41; xc0] (Enlace.__init__ tt) mundo0
    = (Ret tt, Enlace.__init__ tt, mundo0).
Proof.
  split; [reflexivity|].
  apply (sem_recebedor_descarta aceita (Enlace.__init__ tt) mundo0 [xc0; x41; xc0]).
  reflexivity.
Defined.

(** The datagram DC is sent as C0 DC C0: an ESC_END byte with no ESC
    before it, which C7 as stated excludes. *)
Lemma corpo_com_ESC_END_solto :
  corpo (quadro_de [xdc]) = [xdc]
  ∧ codigos_so_apos_esc false (corpo (quadro_de [xdc])) = false
  ∧ ¬ (∀ d : bytes, codigos_so_apos_esc false (corpo (quadro_de d)) = true).
Proof.
  split; [reflexivity|]. split; [reflexivity|].
  intros H. specialize (H [xdc]). vm_compute in H. discriminate.
Defined.

Lemma enviar_destino_desconhecido_witness :
  CamadaEnlace.enlaces (CamadaEnlace.__init__ (Cb:=unit) {["10.0.0.1" := tt]})
    !! "10.0.0.2" = None
  ∧ CamadaEnlace.enviar aceita [x01] "10.0.0.2"
      (CamadaEnlace.__init__ (Cb:=unit) {["10.0.0.1" := tt]}) mundo0
    = (Exc KeyError, CamadaEnlace.__init__ {["10.0.0.1" := tt]}, mundo0).
Proof.
  assert (H : CamadaEnlace.enlaces
                (CamadaEnlace.__init__ (Cb:=unit) {["10.0.0.1" := tt]})
                !! "10.0.0.2" = None) by (vm_compute; reflexivity).
  split; [exact H|].
  apply (enviar_destino_desconhecido aceita
           (CamadaEnlace.__init__ (Cb:=unit) {["10.0.0.1" := tt]}) mundo0 [x01]
           "10.0.0.2" H).
Defined.

End Exemplos.

(** * Further properties of the code *)

(** ** The encoder *)

Section Codificador.
Import Bytes.

(** The escaped payload is the datagram plus one byte for each ESC or
    END in it: never shorter than the datagram, never more than twice as
    long; the frame adds the two delimiters. *)
Theorem escapar_length (d : bytes) :
  length (escapar d)
  = length d + length (filter (fun b => b = Byte.xdb ∨ b = Byte.xc0) d)
  ∧ length d ≤ length (escapar d) ≤ 2 * length d
  ∧ length (quadro_de d) = length (escapar d) + 2.
Proof.
  assert (Hex : length (escapar d)
                = length d + length (filter (fun b => b = Byte.xdb ∨ b = Byte.xc0) d)).
  { induction d as [|b d IH]; [reflexivity|].
    rewrite escapar_cons, length_app, IH. unfold token.
    destruct (decide (b = Byte.xdb)) as [->|Hesc].
    - rewrite filter_cons_True by (left; reflexivity). cbn [length]. lia.
    - destruct (decide (b = Byte.xc0)) as [->|Hend].
      + rewrite filter_cons_True by (right; reflexivity). cbn [length]. lia.
      + rewrite filter_cons_False by (intros [?|?]; congruence).
        cbn [length]. lia. }
  split; [exact Hex|]. split.
  - pose proof (length_filter (fun b => b = Byte.xdb ∨ b = Byte.xc0) d). lia.
  - unfold quadro_de, END. rewrite !length_app. cbn [length]. lia.
Qed.

(** Escaping works byte by byte: the escaped form of a concatenation is
    the concatenation of the escaped forms. *)
Theorem escapar_app (d1 d2 : bytes) :
  escapar (d1 ++ d2) = escapar d1 ++ escapar d2.
Proof.
  induction d1 as [|b d1 IH]; [reflexivity|].
  rewrite <- app_comm_cons, !escapar_cons, IH, app_assoc. reflexivity.
Qed.

Lemma replace2_livre (a c : byte) (novo q t : bytes) :
  a ∉ q -> replace (q ++ t) [a; c] novo = q ++ replace t [a; c] novo.
Proof.
  induction q as [|b q IH]; intros Hq; [reflexivity|].
  apply not_elem_of_cons in Hq as [Hb Hq].
  rewrite <- !app_comm_cons, replace2_other by congruence.
  rewrite IH by assumption. reflexivity.
Qed.

(** The decoder is purely textual: a segment without ESC is delivered
    as it is, and so is a segment whose only ESC is its last byte (an
    escape cut short is passed through, not rejected). *)
Theorem desescapar_sem_ESC (q : bytes) :
  Byte.xdb ∉ q ->
  desescapar q = q ∧ desescapar (q ++ [Byte.xdb]) = q ++ [Byte.xdb].
Proof.
  intros Hq. unfold desescapar, ESC, ESC_END, ESC_ESC, END. cbn [app].
  split.
  - rewrite <- (app_nil_r q).
    rewrite !replace2_livre by assumption. reflexivity.
  - rewrite !replace2_livre by assumption. reflexivity.
Qed.

End Codificador.

(** ** The decoder on whole streams *)

Section Decodificador.
Context {W L Cb : Type}.
Variable linha_enviar : L -> bytes -> W -> res unit * W.
Variable chamar : Cb -> bytes -> W -> res unit * W.
Implicit Types (self : Enlace.t (L:=L) (Cb:=Cb)) (w : Mundo W L) (cb : Cb) (l : L).

(** A chunk without END only grows the buffer: nothing is delivered and
    nothing outside is touched, wherever the chunk was cut (in the
    middle of a frame, right after an ESC). *)
Theorem pedaco_sem_END_fica_no_buffer cb self w (dados : bytes) :
  Enlace.callback self = Some cb ->
  Byte.xc0 ∉ Enlace.buffer self ->
  Byte.xc0 ∉ dados ->
  Enlace.__raw_recv chamar dados self w
  = (Ret tt, Enlace.set_buffer (Enlace.buffer self ++ dados) self, w).
Proof.
  intros Hcb Hb Hd.
  apply (raw_recv_passo chamar cb self w dados [] (Enlace.buffer self ++ dados)).
  - exact Hcb.
  - reflexivity.
  - constructor.
  - rewrite not_elem_of_app. split; assumption.
Qed.

(** Cutting does not show: chunks fed one after the other leave the
    Enlace and the world exactly as the one chunk made of all of them. *)
Theorem pedacos_como_um_so cb (chunks : list bytes) self w :
  Enlace.callback self = Some cb ->
  Byte.xc0 ∉ Enlace.buffer self ->
  receber_todos chamar chunks self w
  = ((Enlace.__raw_recv chamar (concat chunks) self w).1.2,
     (Enlace.__raw_recv chamar (concat chunks) self w).2).
Proof.
  intros Hcb Hb.
  destruct (juntar_existe Byte.xc0 (Enlace.buffer self ++ concat chunks))
    as (qs & u & Hj & Hqs & Hu).
  rewrite (receber_todos_fluxo chamar cb chunks self w qs u) by assumption.
  rewrite (raw_recv_passo chamar cb self w (concat chunks) qs u) by assumption.
  reflexivity.
Qed.

Lemma quadros_juntar (ds : list bytes) :
  concat (map quadro_de ds)
  = juntar Byte.xc0 (flat_map (fun d => [[]; escapar d]) ds) [].
Proof.
  induction ds as [|d ds IH]; [reflexivity|].
  cbn [map concat]. rewrite IH, quadro_de_app_juntar. reflexivity.
Qed.


Lemma chamadas_enviar self w (d : bytes) :
  chamadas (eventos (Enlace.enviar linha_enviar d self w).2) = chamadas (eventos w).
Proof.
  rewrite enviar_run. destruct (linha_enviar _ _ _) as [r x]. cbn [snd eventos].
  rewrite chamadas_app. apply app_nil_r.
Qed.

Lemma enviados_enviar self w (d : bytes) :
  enviados (eventos (Enlace.enviar linha_enviar d self w).2)
  = enviados (eventos w) ++ [(Enlace.linha_serial self, quadro_de d)].
Proof.
  rewrite enviar_run. destruct (linha_enviar _ _ _) as [r x]. cbn [snd eventos].
  rewrite enviados_app. reflexivity.
Qed.

Lemma enviar_self self w (d : bytes) :
  (Enlace.enviar linha_enviar d self w).1.2 = self.
Proof. rewrite enviar_run. destruct (linha_enviar _ _ _) as [r x]. reflexivity. Qed.

(** The run of a sequence of calls, seen from outside. *)
Lemma execucao_observada (ops : list (chamada Cb)) self w :
  Byte.xc0 ∉ Enlace.buffer self ->
  ∃ qs,
    Enlace.buffer self ++ fluxo_aceito (Enlace.callback self) ops
    = juntar Byte.xc0 qs
        (Enlace.buffer (executar_todas linha_enviar chamar ops self w).1)
    ∧ Forall (fun q => Byte.xc0 ∉ q) qs
    ∧ chamadas (eventos (executar_todas linha_enviar chamar ops self w).2)
      = chamadas (eventos w) ++ map desescapar (filter (fun q => q ≠ []) qs)
    ∧ enviados (eventos (executar_todas linha_enviar chamar ops self w).2)
      = enviados (eventos w)
        ++ map (fun d => (Enlace.linha_serial self, quadro_de d)) (datagramas_enviados ops)
    ∧ Enlace.linha_serial (executar_todas linha_enviar chamar ops self w).1
      = Enlace.linha_serial self
    ∧ Byte.xc0 ∉ Enlace.buffer (executar_todas linha_enviar chamar ops self w).1.
Proof.
  revert self w. induction ops as [|op ops IH]; intros self w Hb.
  - exists []. cbn. rewrite !app_nil_r. repeat split; [constructor | exact Hb].
  - destruct op as [c | dados | d];
      cbn [executar_todas executar fluxo_aceito datagramas_enviados flat_map app].
    + apply (IH (Enlace.set_callback c self) w). exact Hb.
    + destruct (Enlace.callback self) as [cb|] eqn:Hcb.
      * destruct (juntar_existe Byte.xc0 (Enlace.buffer self ++ dados))
          as (qs1 & u1 & Hj1 & Hqs1 & Hu1).
        rewrite (raw_recv_passo chamar cb self w dados qs1 u1) by assumption.
        destruct (IH (Enlace.set_buffer u1 self) (entregar chamar cb qs1 w) Hu1)
          as (qs2 & Hj2 & Hqs2 & Hc2 & He2 & Hl2 & Hf2).
        exists (qs1 ++ qs2).
        split; [|split; [apply Forall_app; split; assumption|split; [|split; [|split]]]].
        -- rewrite app_assoc, Hj1. apply juntar_app.
           cbn [Enlace.buffer Enlace.set_buffer Enlace.callback] in Hj2.
           rewrite Hcb in Hj2. exact Hj2.
        -- rewrite Hc2, chamadas_entregar, filter_app, map_app, app_assoc.
           reflexivity.
        -- rewrite He2, enviados_entregar. reflexivity.
        -- exact Hl2.
        -- exact Hf2.
      * rewrite (raw_recv_sem_recebedor chamar self w dados Hcb).
        specialize (IH self w Hb). rewrite Hcb in IH. exact IH.
    + pose proof (chamadas_enviar self w d) as Hc.
      pose proof (enviados_enviar self w d) as He.
      pose proof (enviar_self self w d) as Hs.
      destruct (Enlace.enviar linha_enviar d self w) as [[r self1] w1].
      cbn [fst snd] in Hc, He, Hs. subst self1.
      destruct (IH self w1 Hb) as (qs & Hj & Hqs & Hc2 & He2 & Hl2 & Hf2).
      exists qs. split; [exact Hj|]. split; [exact Hqs|]. split; [|split; [|split]].
      * rewrite Hc2, Hc. reflexivity.
      * rewrite He2, He, <- app_assoc. reflexivity.
      * exact Hl2.
      * exact Hf2.
Qed.



End Decodificador.

(** ** The multiplexer *)

Section Multiplexador.
Context {W L Cb : Type}.
Variable linha_enviar : L -> bytes -> W -> res unit * W.
Variable chamar : Cb -> bytes -> W -> res unit * W.
Implicit Types (self : CamadaEnlace.t (L:=L) (Cb:=Cb)) (w : Mundo W L).
Implicit Types (enlace : Enlace.t (L:=L) (Cb:=CamadaEnlace.metodo)).
Implicit Types (linhas_seriais : gmap string L) (ip next_hop : string).

Lemma set_enlaces_id self ip enlace :
  CamadaEnlace.enlaces self !! ip = Some enlace ->
  CamadaEnlace.set_enlaces (<[ip := enlace]> (CamadaEnlace.enlaces self)) self = self.
Proof.
  intros Hk. rewrite insert_id by exact Hk. destruct self; reflexivity.
Qed.

Lemma enviar_camada_run self w (datagrama : bytes) next_hop enlace :
  CamadaEnlace.enlaces self !! next_hop = Some enlace ->
  CamadaEnlace.enviar linha_enviar datagrama next_hop self w
  = (let '(r, x) :=
       linha_enviar (Enlace.linha_serial enlace) (quadro_de datagrama) (ext w) in
     (r, self,
      {| ext := x;
         eventos := eventos w
                    ++ [EvEnviar (Enlace.linha_serial enlace) (quadro_de datagrama)] |})).
Proof.
  intros Hk. unfold CamadaEnlace.enviar, mbind, Py_bind, bind, ler, levantar.
  unfold dict_getitem. rewrite Hk. unfold CamadaEnlace.no_enlace.
  rewrite enviar_run. destruct (linha_enviar _ _ _) as [r x].
  rewrite set_enlaces_id by exact Hk. reflexivity.
Qed.

(** [CamadaEnlace.enviar] to a configured next hop makes one call of the
    send of that peer's line, with the frame of the datagram; it returns
    what that send returns (an exception of the transport reaches the
    caller) and leaves the camada as it was. *)
Theorem enviar_destino_configurado self w (datagrama : bytes) next_hop enlace :
  CamadaEnlace.enlaces self !! next_hop = Some enlace ->
  CamadaEnlace.enviar linha_enviar datagrama next_hop self w
  = (let '(r, x) :=
       linha_enviar (Enlace.linha_serial enlace) (quadro_de datagrama) (ext w) in
     (r, self,
      {| ext := x;
         eventos := eventos w
                    ++ [EvEnviar (Enlace.linha_serial enlace) (quadro_de datagrama)] |})).
Proof. apply enviar_camada_run. Qed.

Lemma enviar_camada_self self w (datagrama : bytes) next_hop :
  (CamadaEnlace.enviar linha_enviar datagrama next_hop self w).1.2 = self.
Proof.
  destruct (CamadaEnlace.enlaces self !! next_hop) as [enlace|] eqn:Hk.
  - rewrite (enviar_camada_run self w datagrama next_hop enlace Hk).
    destruct (linha_enviar _ _ _) as [r x]. reflexivity.
  - unfold CamadaEnlace.enviar, mbind, Py_bind, bind, ler, levantar.
    unfold dict_getitem. rewrite Hk. reflexivity.
Qed.

(** One chunk on the line of a configured peer. *)
Lemma recebe_de_passo self w ip (dados : bytes) enlace (qs : list bytes) (u : bytes) :
  CamadaEnlace.enlaces self !! ip = Some enlace ->
  Enlace.callback enlace = Some CamadaEnlace.Self_callback ->
  Enlace.buffer enlace ++ dados = juntar Byte.xc0 qs u ->
  Forall (fun q => Byte.xc0 ∉ q) qs -> Byte.xc0 ∉ u ->
  CamadaEnlace.recebe_de chamar ip dados self w
  = (Ret tt,
     CamadaEnlace.set_enlaces
       (<[ip := Enlace.set_buffer u enlace]> (CamadaEnlace.enlaces self)) self,
     entregar (CamadaEnlace._callback chamar self) CamadaEnlace.Self_callback qs w).
Proof.
  intros Hk Hcb Hj Hqs Hu. unfold CamadaEnlace.recebe_de. rewrite Hk.
  unfold CamadaEnlace.no_enlace.
  rewrite (raw_recv_passo _ CamadaEnlace.Self_callback enlace w dados qs u)
    by assumption.
  reflexivity.
Qed.

(** With no upper receiver the fan-in returns at once: the loop leaves
    the outside state alone and reports nothing. *)
Lemma entregar_sem_receptor self (m : CamadaEnlace.metodo) (qs : list bytes) w :
  CamadaEnlace.callback self = None ->
  ext (entregar (CamadaEnlace._callback chamar self) m qs w) = ext w
  ∧ relatados (eventos (entregar (CamadaEnlace._callback chamar self) m qs w))
    = relatados (eventos w)
  ∧ enviados (eventos (entregar (CamadaEnlace._callback chamar self) m qs w))
    = enviados (eventos w).
Proof.
  intros Hcb. split; [|split; [|apply enviados_entregar]].
  - revert w. induction qs as [|q qs IH]; intros w; [reflexivity|].
    unfold entregar. cbn [fold_left].
    fold (entregar (CamadaEnlace._callback chamar self) m qs
            (entregar_um (CamadaEnlace._callback chamar self) m w q)).
    rewrite IH. destruct q as [|b q]; [reflexivity|].
    unfold entregar_um, CamadaEnlace._callback. rewrite Hcb. reflexivity.
  - revert w. induction qs as [|q qs IH]; intros w; [reflexivity|].
    unfold entregar. cbn [fold_left].
    fold (entregar (CamadaEnlace._callback chamar self) m qs
            (entregar_um (CamadaEnlace._callback chamar self) m w q)).
    rewrite IH. destruct q as [|b q]; [reflexivity|].
    unfold entregar_um, CamadaEnlace._callback. rewrite Hcb.
    cbn [eventos]. rewrite relatados_app. apply app_nil_r.
Qed.

Lemma init_lookup linhas_seriais ip :
  CamadaEnlace.enlaces (CamadaEnlace.__init__ (Cb:=Cb) linhas_seriais) !! ip
  = (fun l => Enlace.set_callback (Some CamadaEnlace.Self_callback) (Enlace.__init__ l))
      <$> linhas_seriais !! ip.
Proof. unfold CamadaEnlace.__init__. cbn [CamadaEnlace.enlaces]. apply lookup_fmap. Qed.

(** Frames that arrive before the upper layer has registered its
    receiver are decoded and lost without a trace: the call returns
    normally, nothing outside is called or changed, no error is
    reported, and the camada is again as just built, buffer empty. *)
Theorem quadros_antes_do_registro linhas_seriais ip (l : L) w (ds : list bytes) :
  linhas_seriais !! ip = Some l ->
  ∃ w', CamadaEnlace.recebe_de chamar ip (concat (map quadro_de ds))
          (CamadaEnlace.__init__ linhas_seriais) w
        = (Ret tt, CamadaEnlace.__init__ linhas_seriais, w')
        ∧ ext w' = ext w
        ∧ relatados (eventos w') = relatados (eventos w)
        ∧ enviados (eventos w') = enviados (eventos w).
Proof.
  intros Hl.
  set (self := CamadaEnlace.__init__ (Cb:=Cb) linhas_seriais).
  set (enlace := Enlace.set_callback (Cb:=CamadaEnlace.metodo)
                   (Some CamadaEnlace.Self_callback) (Enlace.__init__ l)).
  assert (Hk : CamadaEnlace.enlaces self !! ip = Some enlace).
  { unfold self. rewrite init_lookup, Hl. reflexivity. }
  exists (entregar (CamadaEnlace._callback chamar self) CamadaEnlace.Self_callback
            (flat_map (fun d => [[]; escapar d]) ds) w).
  split.
  - rewrite (recebe_de_passo self w ip _ enlace
               (flat_map (fun d => [[]; escapar d]) ds) []).
    + change (Enlace.set_buffer [] enlace) with enlace.
      rewrite set_enlaces_id by exact Hk. reflexivity.
    + exact Hk.
    + reflexivity.
    + apply quadros_juntar.
    + apply segmentos_de_quadros.
    + apply not_elem_of_nil.
  - apply entregar_sem_receptor. reflexivity.
Qed.

(** Once the upper receiver is registered, also after the links were
    built, the frame of a non-empty datagram arriving on a configured
    line reaches that receiver: it is called once, with the datagram; the
    call of [recebe_de] returns normally even when the receiver raises,
    and the exception is then reported. *)
Theorem quadro_depois_do_registro linhas_seriais ip (l : L) w (f : Cb) (d : bytes) :
  linhas_seriais !! ip = Some l ->
  d ≠ [] ->
  let self := CamadaEnlace.set_callback (Some f) (CamadaEnlace.__init__ linhas_seriais) in
  CamadaEnlace.registrar_recebedor (Some f) (CamadaEnlace.__init__ linhas_seriais) w
  = (Ret tt, self, w)
  ∧ ∃ w', CamadaEnlace.recebe_de chamar ip (quadro_de d) self w = (Ret tt, self, w')
          ∧ ext w' = (chamar f d (ext w)).2
          ∧ chamadas (eventos w') = chamadas (eventos w) ++ [d]
          ∧ relatados (eventos w')
            = relatados (eventos w)
              ++ match (chamar f d (ext w)).1 with Exc e => [e] | Ret _ => [] end.
Proof.
  intros Hl Hd self. split; [reflexivity|].
  set (enlace := Enlace.set_callback (Cb:=CamadaEnlace.metodo)
                   (Some CamadaEnlace.Self_callback) (Enlace.__init__ l)).
  assert (Hk : CamadaEnlace.enlaces self !! ip = Some enlace).
  { unfold self. cbn [CamadaEnlace.enlaces CamadaEnlace.set_callback].
    rewrite init_lookup, Hl. reflexivity. }
  assert (Hn : escapar d ≠ []) by (rewrite escapar_vazio; exact Hd).
  exists (entregar (CamadaEnlace._callback chamar self) CamadaEnlace.Self_callback
            [[]; escapar d] w).
  split.
  - rewrite (recebe_de_passo self w ip _ enlace [[]; escapar d] []).
    + change (Enlace.set_buffer [] enlace) with enlace.
      rewrite set_enlaces_id by exact Hk. reflexivity.
    + exact Hk.
    + reflexivity.
    + apply quadro_de_juntar.
    + repeat constructor; [apply not_elem_of_nil | apply escapar_sem_END].
    + apply not_elem_of_nil.
  - unfold entregar. cbn [fold_left].
    change (entregar_um (CamadaEnlace._callback chamar self)
              CamadaEnlace.Self_callback w []) with w.
    destruct (escapar d) as [|b q] eqn:He; [congruence|].
    unfold entregar_um. rewrite <- He, ida_e_volta. cbn zeta.
    change (CamadaEnlace._callback chamar self CamadaEnlace.Self_callback d (ext w))
      with (chamar f d (ext w)).
    destruct (chamar f d (ext w)) as [[[]|e] x]; cbn [fst snd ext eventos anotar];
      rewrite ?chamadas_app, ?relatados_app; cbn; rewrite ?app_nil_r;
      repeat split; reflexivity.
Qed.

Lemma enlaces_independentes_aux self w ip (dados : bytes) :
  (∀ ip', ip' ≠ ip ->
     CamadaEnlace.enlaces (CamadaEnlace.recebe_de chamar ip dados self w).1.2 !! ip'
     = CamadaEnlace.enlaces self !! ip')
  ∧ CamadaEnlace.callback (CamadaEnlace.recebe_de chamar ip dados self w).1.2
    = CamadaEnlace.callback self
  ∧ (CamadaEnlace.enlaces self !! ip = None ->
     CamadaEnlace.recebe_de chamar ip dados self w = (Ret tt, self, w)).
Proof.
  unfold CamadaEnlace.recebe_de.
  destruct (CamadaEnlace.enlaces self !! ip) as [enlace|] eqn:Hk.
  - unfold CamadaEnlace.no_enlace.
    destruct (Enlace.__raw_recv _ dados enlace w) as [[r enlace'] w'].
    cbn [fst snd CamadaEnlace.enlaces CamadaEnlace.callback CamadaEnlace.set_enlaces].
    split; [|split; [reflexivity | discriminate]].
    intros ip' Hne. apply lookup_insert_ne. congruence.
  - split; [|split]; reflexivity.
Qed.

Lemma camada_ok_init linhas_seriais :
  camada_ok linhas_seriais (CamadaEnlace.__init__ (Cb:=Cb) linhas_seriais).
Proof.
  intros ip. rewrite init_lookup.
  destruct (linhas_seriais !! ip) as [l|]; [|reflexivity].
  exists []. split; [reflexivity | apply not_elem_of_nil].
Qed.

Lemma camada_ok_passo linhas_seriais (op : chamada_camada Cb) self w :
  camada_ok linhas_seriais self ->
  camada_ok linhas_seriais (executar_camada linha_enviar chamar op self w).1.2.
Proof.
  intros Hok. destruct op as [c | d next_hop | ip dados]; cbn [executar_camada].
  - exact Hok.
  - rewrite enviar_camada_self. exact Hok.
  - destruct (CamadaEnlace.enlaces self !! ip) as [enlace|] eqn:Hk.
    + pose proof (Hok ip) as Hip. rewrite Hk in Hip.
      destruct (linhas_seriais !! ip) as [l|] eqn:Hl; [|discriminate].
      destruct Hip as (b & Hb & Hfree). injection Hb as ->.
      destruct (juntar_existe Byte.xc0 (b ++ dados)) as (qs & u & Hj & Hqs & Hu).
      rewrite (recebe_de_passo self w ip dados _ qs u Hk eq_refl Hj Hqs Hu).
      cbn [fst snd]. intros ip'.
      cbn [CamadaEnlace.enlaces CamadaEnlace.set_enlaces].
      destruct (decide (ip' = ip)) as [->|Hne].
      * rewrite Hl, lookup_insert_eq. exists u. split; [reflexivity | exact Hu].
      * rewrite lookup_insert_ne by congruence. apply Hok.
    + rewrite (proj2 (proj2 (enlaces_independentes_aux self w ip dados)) Hk).
      exact Hok.
Qed.

Lemma camada_ok_execucao linhas_seriais (ops : list (chamada_camada Cb)) self w :
  camada_ok linhas_seriais self ->
  camada_ok linhas_seriais (executar_todas_camada linha_enviar chamar ops self w).1.
Proof.
  revert self w. induction ops as [|op ops IH]; intros self w Hok; [exact Hok|].
  cbn [executar_todas_camada].
  pose proof (camada_ok_passo linhas_seriais op self w Hok) as Hstep.
  destruct (executar_camada linha_enviar chamar op self w) as [[r self1] w1].
  apply IH. exact Hstep.
Qed.


(** The buffer of a link follows the chunks of its own line only. *)
Lemma linha_isolada linhas_seriais (ops : list (chamada_camada Cb)) ip (l : L) :
  linhas_seriais !! ip = Some l ->
  ∀ self w (b : bytes),
    camada_ok linhas_seriais self ->
    CamadaEnlace.enlaces self !! ip
    = Some {| Enlace.linha_serial := l;
              Enlace.callback := Some CamadaEnlace.Self_callback;
              Enlace.buffer := b |} ->
    ∃ (qs : list bytes) (b' : bytes),
      CamadaEnlace.enlaces
        (executar_todas_camada linha_enviar chamar ops self w).1 !! ip
      = Some {| Enlace.linha_serial := l;
                Enlace.callback := Some CamadaEnlace.Self_callback;
                Enlace.buffer := b' |}
      ∧ b ++ fluxo_da_linha ip ops = juntar Byte.xc0 qs b'
      ∧ Forall (fun q => Byte.xc0 ∉ q) qs
      ∧ Byte.xc0 ∉ b'.
Proof.
  intros Hl. induction ops as [|op ops IH]; intros self w b Hok Hk.
  - exists [], b. cbn. rewrite app_nil_r. repeat split; [exact Hk | constructor|].
    pose proof (Hok ip) as Hip. rewrite Hl in Hip.
    destruct Hip as (b0 & Hb0 & Hfree). rewrite Hk in Hb0.
    injection Hb0 as <-. exact Hfree.
  - cbn [executar_todas_camada fluxo_da_linha flat_map].
    pose proof (camada_ok_passo linhas_seriais op self w Hok) as Hok1.
    destruct op as [c | d next_hop | ip' dados]; cbn [executar_camada] in *.
    + apply (IH (CamadaEnlace.set_callback c self) w b Hok1). exact Hk.
    + pose proof (enviar_camada_self self w d next_hop) as Hs.
      destruct (CamadaEnlace.enviar linha_enviar d next_hop self w) as [[r self1] w1].
      cbn [fst snd] in Hs, Hok1. subst self1.
      apply (IH self w1 b Hok). exact Hk.
    + destruct (decide (ip' = ip)) as [->|Hne].
      * assert (Hfree : Byte.xc0 ∉ b).
        { pose proof (Hok ip) as Hip. rewrite Hl in Hip.
          destruct Hip as (b0 & Hb0 & Hfree). rewrite Hk in Hb0.
          injection Hb0 as <-. exact Hfree. }
        destruct (juntar_existe Byte.xc0 (b ++ dados)) as (qs1 & u1 & Hj1 & Hqs1 & Hu1).
        rewrite (recebe_de_passo self w ip dados _ qs1 u1 Hk eq_refl Hj1 Hqs1 Hu1)
          in Hok1 |- *.
        cbn [fst snd] in Hok1.
        edestruct (IH _ (entregar (CamadaEnlace._callback chamar self)
                           CamadaEnlace.Self_callback qs1 w) u1 Hok1)
          as (qs2 & b' & Hk2 & Hj2 & Hqs2 & Hu2).
        { cbn [CamadaEnlace.enlaces CamadaEnlace.set_enlaces].
          apply lookup_insert_eq. }
        exists (qs1 ++ qs2), b'. split; [exact Hk2|].
        split; [|split; [apply Forall_app; split; assumption | exact Hu2]].
        rewrite app_assoc, Hj1. apply juntar_app. exact Hj2.
      * pose proof (proj1 (enlaces_independentes_aux self w ip' dados) ip
                      (not_eq_sym Hne)) as Hsame.
        destruct (CamadaEnlace.recebe_de chamar ip' dados self w) as [[r self1] w1].
        cbn [fst snd] in Hsame, Hok1. cbn [app].
        apply (IH self1 w1 b Hok1). rewrite Hsame. exact Hk.
Qed.

(** The links of a camada share nothing. After any sequence of calls
    on a camada built from [linhas_seriais] (chunks arriving on any
    line, sends, receivers registered), the Enlace of a configured
    address has reassembled the chunks of its own line and no others:
    that line's stream is cut at its END bytes into closed segments and
    an open rest without END, and the rest is the link's buffer. *)
Theorem enlaces_independentes linhas_seriais w (ops : list (chamada_camada Cb)) ip (l : L) :
  linhas_seriais !! ip = Some l ->
  let '(self', _) :=
    executar_todas_camada linha_enviar chamar ops
      (CamadaEnlace.__init__ linhas_seriais) w in
  ∃ (qs : list bytes) (b' : bytes),
    CamadaEnlace.enlaces self' !! ip
    = Some {| Enlace.linha_serial := l;
              Enlace.callback := Some CamadaEnlace.Self_callback;
              Enlace.buffer := b' |}
    ∧ Bytes.split (fluxo_da_linha ip ops) END = Ret (qs ++ [b'])
    ∧ fluxo_da_linha ip ops = juntar Byte.xc0 qs b'
    ∧ (Byte.xc0 ∉ b').
Proof.
  intros Hl.
  destruct (linha_isolada linhas_seriais ops ip l Hl
              (CamadaEnlace.__init__ linhas_seriais) w []
              (camada_ok_init linhas_seriais))
    as (qs & b' & Hk & Hj & Hqs & Hu).
  { rewrite init_lookup, Hl. reflexivity. }
  destruct (executar_todas_camada linha_enviar chamar ops
              (CamadaEnlace.__init__ linhas_seriais) w) as [self' w'].
  cbn [fst app] in *. exists qs, b'.
  split; [exact Hk|]. split; [|split; [exact Hj | exact Hu]].
  rewrite Hj. unfold Bytes.split, END. rewrite split1_juntar by assumption.
  reflexivity.
Qed.

End Multiplexador.

(** ** The further properties at concrete inputs *)

Section ExemplosAdicionais.
Import Byte.

Lemma desescapar_sem_ESC_witness :
  (xdb ∉ [x01; xdc; xdd])
  ∧ desescapar [x01; xdc; xdd] = [x01; xdc; xdd]
  ∧ desescapar ([x01; xdc; xdd] ++ [xdb]) = [x01; xdc; xdd] ++ [xdb].
Proof.
  assert (H : xdb ∉ [x01; xdc; xdd]) by compute_done.
  split; [exact H|]. apply (desescapar_sem_ESC [x01; xdc; xdd] H).
Defined.

Lemma pedaco_sem_END_fica_no_buffer_witness :
  Enlace.callback (Enlace.set_buffer [x01] (enlace_novo (Cb:=unit) tt tt)) = Some tt
  ∧ (xc0 ∉ Enlace.buffer (Enlace.set_buffer [x01] (enlace_novo (Cb:=unit) tt tt)))
  ∧ (xc0 ∉ [x02; xdb])
  ∧ Enlace.__raw_recv aceita [x02; xdb] (Enlace.set_buffer [x01] (enlace_novo tt tt)) mundo0
    = (Ret tt,
       Enlace.set_buffer
         (Enlace.buffer (Enlace.set_buffer [x01] (enlace_novo tt tt)) ++ [x02; xdb])
         (Enlace.set_buffer [x01] (enlace_novo tt tt)),
       mundo0).
Proof.
  assert (H1 : xc0 ∉ Enlace.buffer (Enlace.set_buffer [x01] (enlace_novo (Cb:=unit) tt tt)))
    by compute_done.
  assert (H2 : xc0 ∉ [x02; xdb]) by compute_done.
  split; [reflexivity|]. split; [exact H1|]. split; [exact H2|].
  apply (pedaco_sem_END_fica_no_buffer aceita tt
           (Enlace.set_buffer [x01] (enlace_novo tt tt)) mundo0 [x02; xdb]
           eq_refl H1 H2).
Defined.

Lemma pedacos_como_um_so_witness :
  Enlace.callback (enlace_novo (Cb:=unit) tt tt) = Some tt
  ∧ (xc0 ∉ Enlace.buffer (enlace_novo (Cb:=unit) tt tt))
  ∧ receber_todos recusa_x01 [[xc0; x01]; []; [xc0; xdb]; [xdc; xc0; x05]]
      (enlace_novo tt tt) mundo0
    = ((Enlace.__raw_recv recusa_x01
          (concat [[xc0; x01]; []; [xc0; xdb]; [xdc; xc0; x05]])
          (enlace_novo tt tt) mundo0).1.2,
       (Enlace.__raw_recv recusa_x01
          (concat [[xc0; x01]; []; [xc0; xdb]; [xdc; xc0; x05]])
          (enlace_novo tt tt) mundo0).2).
Proof.
  assert (H : xc0 ∉ Enlace.buffer (enlace_novo (Cb:=unit) tt tt)) by compute_done.
  split; [reflexivity|]. split; [exact H|].
  apply (pedacos_como_um_so recusa_x01 tt
           [[xc0; x01]; []; [xc0; xdb]; [xdc; xc0; x05]] (enlace_novo tt tt) mundo0
           eq_refl H).
Defined.


Lemma enviar_destino_configurado_witness :
  CamadaEnlace.enlaces (CamadaEnlace.__init__ (Cb:=unit) {["10.0.0.1" := tt]})
    !! "10.0.0.1"
  = Some (Enlace.set_callback (Some CamadaEnlace.Self_callback) (Enlace.__init__ tt))
  ∧ CamadaEnlace.enviar aceita [x01; xc0] "10.0.0.1"
      (CamadaEnlace.__init__ (Cb:=unit) {["10.0.0.1" := tt]}) mundo0
    = (Ret tt, CamadaEnlace.__init__ {["10.0.0.1" := tt]},
       {| ext := tt; eventos := [EvEnviar tt [xc0; x01; xdb; xdc; xc0]] |}).
Proof.
  assert (H : CamadaEnlace.enlaces
                (CamadaEnlace.__init__ (Cb:=unit) {["10.0.0.1" := tt]}) !! "10.0.0.1"
              = Some (Enlace.set_callback (Some CamadaEnlace.Self_callback)
                        (Enlace.__init__ tt)))
    by (vm_compute; reflexivity).
  split; [exact H|].
  apply (enviar_destino_configurado aceita
           (CamadaEnlace.__init__ (Cb:=unit) {["10.0.0.1" := tt]}) mundo0
           [x01; xc0] "10.0.0.1" _ H).
Defined.

Lemma quadros_antes_do_registro_witness :
  ({["10.0.0.1" := tt]} : gmap string unit) !! "10.0.0.1" = Some tt
  ∧ ∃ w', CamadaEnlace.recebe_de recusa_x01 "10.0.0.1"
            (concat (map quadro_de [[x01]; [x02; xc0]]))
            (CamadaEnlace.__init__ {["10.0.0.1" := tt]}) mundo0
          = (Ret tt, CamadaEnlace.__init__ {["10.0.0.1" := tt]}, w')
          ∧ ext w' = ext mundo0
          ∧ relatados (eventos w') = relatados (eventos mundo0)
          ∧ enviados (eventos w') = enviados (eventos mundo0).
Proof.
  assert (H : ({["10.0.0.1" := tt]} : gmap string unit) !! "10.0.0.1" = Some tt)
    by (vm_compute; reflexivity).
  split; [exact H|].
  apply (quadros_antes_do_registro recusa_x01 {["10.0.0.1" := tt]} "10.0.0.1" tt
           mundo0 [[x01]; [x02; xc0]] H).
Defined.

Lemma quadro_depois_do_registro_witness :
  (({["10.0.0.1" := tt]} : gmap string unit) !! "10.0.0.1" = Some tt ∧ [x01] ≠ [])
  ∧ ∃ w', CamadaEnlace.recebe_de recusa_x01 "10.0.0.1" (quadro_de [x01])
            (CamadaEnlace.set_callback (Some tt)
               (CamadaEnlace.__init__ {["10.0.0.1" := tt]})) mundo0
          = (Ret tt,
             CamadaEnlace.set_callback (Some tt)
               (CamadaEnlace.__init__ {["10.0.0.1" := tt]}), w')
          ∧ ext w' = (recusa_x01 tt [x01] (ext mundo0)).2
          ∧ chamadas (eventos w') = chamadas (eventos mundo0) ++ [[x01]]
          ∧ relatados (eventos w')
            = relatados (eventos mundo0)
              ++ match (recusa_x01 tt [x01] (ext mundo0)).1 with
                 | Exc e => [e]
                 | Ret _ => []
                 end.
Proof.
  assert (H : ({["10.0.0.1" := tt]} : gmap string unit) !! "10.0.0.1" = Some tt)
    by (vm_compute; reflexivity).
  assert (Hd : [x01] ≠ []) by discriminate.
  split; [split; [exact H | exact Hd]|].
  exact (proj2 (quadro_depois_do_registro recusa_x01 {["10.0.0.1" := tt]} "10.0.0.1"
                  tt mundo0 tt [x01] H Hd)).
Defined.

Lemma enlaces_independentes_witness :
  ({["10.0.0.1" := 1; "10.0.0.2" := 2]} : gmap string nat) !! "10.0.0.1" = Some 1
  ∧ (let '(self', _) :=
       executar_todas_camada linha_aceita recusa_x01
         [CReceber "10.0.0.1" [xc0; x01]; CReceber "10.0.0.2" [xc0; x07; xc0; x08];
          CRegistrar (Some tt); CEnviar [x05] "10.0.0.2";
          CReceber "10.0.0.1" [xc0; x02]; CReceber "10.0.0.3" [x09]]
         (CamadaEnlace.__init__ {["10.0.0.1" := 1; "10.0.0.2" := 2]}) mundo_linhas in
     ∃ (qs : list bytes) (b' : bytes),
       CamadaEnlace.enlaces self' !! "10.0.0.1"
       = Some {| Enlace.linha_serial := 1;
                 Enlace.callback := Some CamadaEnlace.Self_callback;
                 Enlace.buffer := b' |}
       ∧ Bytes.split
           (fluxo_da_linha "10.0.0.1"
              [CReceber "10.0.0.1" [xc0; x01]; CReceber "10.0.0.2" [xc0; x07; xc0; x08];
               CRegistrar (Some tt); CEnviar [x05] "10.0.0.2";
               CReceber "10.0.0.1" [xc0; x02]; CReceber "10.0.0.3" [x09]]) END
         = Ret (qs ++ [b'])
       ∧ fluxo_da_linha "10.0.0.1"
           [CReceber "10.0.0.1" [xc0; x01]; CReceber "10.0.0.2" [xc0; x07; xc0; x08];
            CRegistrar (Some tt); CEnviar [x05] "10.0.0.2";
            CReceber "10.0.0.1" [xc0; x02]; CReceber "10.0.0.3" [x09]]
         = juntar xc0 qs b'
       ∧ (xc0 ∉ b')).
Proof.
  assert (H : ({["10.0.0.1" := 1; "10.0.0.2" := 2]} : gmap string nat) !! "10.0.0.1"
              = Some 1) by (vm_compute; reflexivity).
  split; [exact H|].
  apply (enlaces_independentes linha_aceita recusa_x01
           {["10.0.0.1" := 1; "10.0.0.2" := 2]} mundo_linhas
           [CReceber "10.0.0.1" [xc0; x01]; CReceber "10.0.0.2" [xc0; x07; xc0; x08];
            CRegistrar (Some tt); CEnviar [x05] "10.0.0.2";
            CReceber "10.0.0.1" [xc0; x02]; CReceber "10.0.0.3" [x09]]
           "10.0.0.1" 1 H).
Defined.

Lemma codigos_so_escapados_witness :
  ((xdc ∉ [x01; xc0; xdb]) ∧ (xdd ∉ [x01; xc0; xdb]))
  ∧ codigos_so_apos_esc false (corpo (quadro_de [x01; xc0; xdb])) = true.
Proof.
  assert (H1 : xdc ∉ [x01; xc0; xdb]) by compute_done.
  assert (H2 : xdd ∉ [x01; xc0; xdb]) by compute_done.
  split; [split; [exact H1 | exact H2]|].
  apply (proj1 (codigos_so_escapados [x01; xc0; xdb]) H1 H2).
Defined.

Example linhas_nao_se_misturam :
  Enlace.buffer
    <$> CamadaEnlace.enlaces
          (executar_todas_camada linha_aceita recusa_x01
             [CReceber "10.0.0.1" [xc0; x01]; CReceber "10.0.0.2" [xc0; x07; xc0; x08];
              CReceber "10.0.0.1" [x02]]
             (CamadaEnlace.__init__ {["10.0.0.1" := 1; "10.0.0.2" := 2]})
             mundo_linhas).1 !! "10.0.0.1"
  = Some [x01; x02].
Proof. vm_compute. reflexivity. Qed.

End ExemplosAdicionais.
